(** * Connection-filter plugin: classification, operator groups, apply protocol

    A shallow embedding of [PgConnectionArgFilterPlugin] (digest, operator
    type registry, [filter] argument injection, [escapeLikeWildcards]) and of
    [PgConnectionArgFilterColumnsPlugin] (per-column filter fields and their
    [applyPlan]).

    JavaScript objects used as records become records, objects used as maps
    become [gmap string _], [null]/[undefined] results become [option],
    [throw] becomes the left injection of a sum, and the plan-time mutation of
    the where-step is threaded through an explicit state-and-exception monad. *)

From Stdlib Require Import String Ascii List Bool Lia.
From stdpp Require Import base option list strings pretty gmap.

Local Open Scope string_scope.

(** ** JavaScript values that flow through the plugin *)

Inductive JsValue : Type :=
| JsUndefined
| JsNull
| JsBoolean (b : bool)
| JsNumber (n : Z)
| JsString (s : string)
| JsObject (fields : list (string * string)).

#[global] Instance JsValue_eq_dec : EqDecision JsValue.
Proof. solve_decision. Defined.

(** [typeof v]. *)
Definition typeof (v : JsValue) : string :=
  match v with
  | JsUndefined => "undefined"
  | JsNull => "object"
  | JsBoolean _ => "boolean"
  | JsNumber _ => "number"
  | JsString _ => "string"
  | JsObject _ => "object"
  end.

(** An error object: the name its prototype gives it ([Error],
    [TypeError]), its message and the own properties copied onto it. *)
Record JsError : Type := MkError {
  error_name : string;
  message : string;
  props : list (string * JsValue)
}.

#[global] Instance JsError_eq_dec : EqDecision JsError.
Proof. solve_decision. Defined.

(** [new Error(msg)]. *)
Definition new_Error (msg : string) : JsError :=
  {| error_name := "Error"; message := msg; props := [] |}.

(** The [TypeError] the engine throws when a member of [undefined] is read,
    with the message in V8's words. *)
Definition undefinedMemberError (member : string) : JsError :=
  {| error_name := "TypeError";
     message := "Cannot read properties of undefined (reading '" ++ member
                ++ "')";
     props := [] |}.

(** [Object.assign(target, source)] on an error target: the own enumerable
    properties of [source] are copied onto [target]. *)
Definition Object_assign (target : JsError) (source : list (string * JsValue))
  : JsError :=
  {| error_name := error_name target;
     message := message target;
     props := props target ++ source |}.

(** ** Codecs (type descriptors) *)

(** Tags and behaviours attached to a codec, a column or a source. *)
Record Extensions : Type := MkExtensions {
  tags_behavior : list string
}.

Record PgTypeColumn_ (C : Type) : Type := MkColumn {
  codec : C;
  col_extensions : Extensions
}.
Arguments MkColumn {C} _ _.
Arguments codec {C} _.
Arguments col_extensions {C} _.

(** [PgTypeCodec]: the members of a codec the plugins read.  [polymorphism]
    is kept by its truthiness; [columns] keeps the order of
    [Object.entries]. *)
#[local] Set Warnings "-register-all".
Inductive Codec : Type := MkCodec {
  name : string;
  columns : option (list (string * PgTypeColumn_ Codec));
  isAnonymous : bool;
  polymorphism : bool;
  arrayOfCodec : option Codec;
  rangeOfCodec : option Codec;
  domainOfCodec : option Codec;
  extensions : Extensions
}.
#[local] Set Warnings "register-all".

Definition PgTypeColumn : Type := PgTypeColumn_ Codec.

(** [column.codec], under a name that a binder called [codec] cannot hide. *)
Definition column_codec (column : PgTypeColumn) : Codec := codec column.

(** [!!x] for the optional members. *)
Definition truthy {A} (o : option A) : bool :=
  match o with Some _ => true | None => false end.

(** [!!s] for a string that may be missing: the empty string is falsy. *)
Definition truthy_name (o : option string) : option string :=
  match o with
  | Some s => if String.eqb s "" then None else Some s
  | None => None
  end.

(** *** Identity of codecs

    The plugin compares codecs with [===] against the constants of [TYPES].
    Codecs are immutable descriptions here, so identity is equality of the
    descriptions. *)

Definition Extensions_eqb (a b : Extensions) : bool :=
  bool_decide (tags_behavior a = tags_behavior b).

Fixpoint Codec_eqb (a b : Codec) {struct a} : bool :=
  match a, b with
  | MkCodec n1 cols1 an1 p1 ar1 r1 d1 e1, MkCodec n2 cols2 an2 p2 ar2 r2 d2 e2 =>
    String.eqb n1 n2
    && match cols1, cols2 with
       | None, None => true
       | Some l1, Some l2 =>
         (fix go (l1 l2 : list (string * PgTypeColumn_ Codec)) : bool :=
            match l1, l2 with
            | [], [] => true
            | (s1, MkColumn c1 x1) :: t1, (s2, MkColumn c2 x2) :: t2 =>
              String.eqb s1 s2 && Codec_eqb c1 c2 && Extensions_eqb x1 x2
              && go t1 t2
            | _, _ => false
            end) l1 l2
       | _, _ => false
       end
    && Bool.eqb an1 an2
    && Bool.eqb p1 p2
    && match ar1, ar2 with
       | None, None => true
       | Some x, Some y => Codec_eqb x y
       | _, _ => false
       end
    && match r1, r2 with
       | None, None => true
       | Some x, Some y => Codec_eqb x y
       | _, _ => false
       end
    && match d1, d2 with
       | None, None => true
       | Some x, Some y => Codec_eqb x y
       | _, _ => false
       end
    && Extensions_eqb e1 e2
  end.

(** [array.includes(codec)]. *)
Definition includes_codec (l : list Codec) (c : Codec) : bool :=
  existsb (Codec_eqb c) l.

(** [array.includes(name)]. *)
Definition includes_name (l : list string) (s : string) : bool :=
  existsb (String.eqb s) l.

(** ** Collaborators

    What the plugin imports from [@dataplan/pg], and the members of [build]
    it reads.  They are inputs of every definition below. *)

Inductive Situation : Type := Output | Input.

Record DataplanPg : Type := MkDataplanPg {
  TYPES_void : Codec;
  TYPES_json : Codec;
  TYPES_bpchar : Codec;
  TYPES_char : Codec;
  TYPES_name : Codec;
  TYPES_text : Codec;
  TYPES_varchar : Codec;
  TYPES_citext : Codec;
  getInnerCodec : Codec -> option Codec;
  isEnumCodec : Codec -> bool
}.

Record Inflection : Type := MkInflection {
  filterType : string -> string;
  filterFieldType : string -> string;
  filterFieldListType : string -> string;
  column : Codec -> string -> string
}.

Record Options : Type := MkOptions {
  connectionFilterAllowedFieldTypes : option (list string);
  connectionFilterArrays : bool;
  connectionFilterSetofFunctions : bool;
  connectionFilterAllowNullInput : bool;
  connectionFilterAllowEmptyObjectInput : bool
}.

(** A GraphQL type is known to the plugin by its name only. *)
Record GraphQLType : Type := MkGraphQLType { type_name : string }.

#[global] Instance GraphQLType_eq_dec : EqDecision GraphQLType.
Proof. solve_decision. Defined.

Record Build : Type := MkBuild {
  inflection : Inflection;
  options : Options;
  allPgCodecs : list Codec;
  getGraphQLTypeNameByPgCodec : Codec -> Situation -> option string;
  getTypeMetaByName : string -> option unit;
  getGraphQLTypeByPgCodec : Codec -> Situation -> option GraphQLType;
  getTypeByName : string -> option GraphQLType;
  pgGetBehavior : list Extensions -> string;
  behavior_matches : string -> string -> string -> bool
}.

(** ** The classifier *)

Inductive OperatorsCategory : Type := Array | Range | Enum | Domain | Scalar.

#[global] Instance OperatorsCategory_eq_dec : EqDecision OperatorsCategory.
Proof. solve_decision. Defined.

Record Digest : Type := MkDigest {
  isList : bool;
  operatorsTypeName : string;
  relatedTypeName : string;
  inputTypeName : string;
  rangeElementInputTypeName : option string;
  domainBaseTypeName : option string
}.

#[global] Instance Digest_eq_dec : EqDecision Digest.
Proof. solve_decision. Defined.

Section Classifier.

Variable pg : DataplanPg.
Variable build : Build.

Fixpoint isSuitableForFiltering (codec : Codec) : bool :=
  negb (Codec_eqb codec (TYPES_void pg))
  && negb (truthy (columns codec))
  && negb (isAnonymous codec)
  && negb (truthy (arrayOfCodec codec))
  && negb (polymorphism codec)
  && match domainOfCodec codec with
     | None => true
     | Some d => isSuitableForFiltering d
     end.

(** The conditional chain that picks the category. *)
Definition pgConnectionFilterOperatorsCategory (codec : Codec)
  : OperatorsCategory :=
  if truthy (arrayOfCodec codec) then Array
  else if truthy (rangeOfCodec codec) then Range
  else if isEnumCodec pg codec then Enum
  else if truthy (domainOfCodec codec) then Domain
  else Scalar.

Definition actualStringCodecs : list Codec :=
  [TYPES_bpchar pg; TYPES_char pg; TYPES_name pg; TYPES_text pg;
   TYPES_varchar pg; TYPES_citext pg].

(** [codec.arrayOfCodec || codec.rangeOfCodec?.arrayOfCodec], as a
    boolean. *)
Definition listType (codec : Codec) : bool :=
  truthy (arrayOfCodec codec)
  || match rangeOfCodec codec with
     | Some r => truthy (arrayOfCodec r)
     | None => false
     end.

Definition connectionFilterOperatorsDigest (codec : Codec) : option Digest :=
  if negb (isSuitableForFiltering codec) then None else
  match getInnerCodec pg codec with
  | None => None
  | Some pgSimpleCodec =>
    if polymorphism pgSimpleCodec
       || truthy (columns pgSimpleCodec)
       || isAnonymous pgSimpleCodec
    then None else
    if Codec_eqb pgSimpleCodec (TYPES_json pg) then None else
    let itemCodec := default codec (arrayOfCodec codec) in
    match truthy_name (getGraphQLTypeNameByPgCodec build itemCodec Output) with
    | None => None
    | Some fieldTypeName =>
      match getTypeMetaByName build fieldTypeName with
      | None => None
      | Some _ =>
        match truthy_name
                (getGraphQLTypeNameByPgCodec build itemCodec Input) with
        | None => None
        | Some fieldInputTypeName =>
          match getTypeMetaByName build fieldInputTypeName with
          | None => None
          | Some _ =>
            let namedTypeName := fieldTypeName in
            let namedInputTypeName := fieldInputTypeName in
            if String.eqb namedInputTypeName "String"
               && negb (includes_codec actualStringCodecs pgSimpleCodec)
            then None else
            if match connectionFilterAllowedFieldTypes (options build) with
               | Some allowed => negb (includes_name allowed namedTypeName)
               | None => false
               end
            then None else
            if bool_decide (pgConnectionFilterOperatorsCategory codec = Array)
               && negb (connectionFilterArrays (options build))
            then None else
            let rangeElementInputTypeName :=
              match rangeOfCodec codec with
              | Some r => getGraphQLTypeNameByPgCodec build r Input
              | None => None
              end in
            let domainBaseTypeName :=
              match domainOfCodec codec with
              | Some d => getGraphQLTypeNameByPgCodec build d Output
              | None => None
              end in
            let operatorsTypeName :=
              if listType codec
              then filterFieldListType (inflection build) namedTypeName
              else filterFieldType (inflection build) namedTypeName in
            Some {| isList := listType codec;
                    operatorsTypeName := operatorsTypeName;
                    relatedTypeName := namedTypeName;
                    inputTypeName := fieldInputTypeName;
                    rangeElementInputTypeName := rangeElementInputTypeName;
                    domainBaseTypeName := domainBaseTypeName |}
          end
        end
      end
    end
  end.

End Classifier.

(** ** Strings the way JavaScript builds them *)

(** [parts.join(sep)]. *)
Fixpoint join (sep : string) (parts : list string) : string :=
  match parts with
  | [] => ""
  | [p] => p
  | p :: rest => p ++ sep ++ join sep rest
  end.

(** [s.split(sep)] for a separator of one character; [acc] is the piece
    read so far.  The result is never empty: [split "" sep = [""]]. *)
Fixpoint split_from (acc : string) (s : string) (sep : ascii) : list string :=
  match s with
  | EmptyString => [acc]
  | String c rest =>
    if Ascii.eqb c sep then acc :: split_from "" rest sep
    else split_from (acc ++ String c "") rest sep
  end.

Definition split (s : string) (sep : ascii) : list string :=
  split_from "" s sep.

(** The string a template literal puts in place of [${v}]. *)
Definition toString (v : JsValue) : string :=
  match v with
  | JsUndefined => "undefined"
  | JsNull => "null"
  | JsBoolean true => "true"
  | JsBoolean false => "false"
  | JsNumber n => pretty n
  | JsString s => s
  | JsObject _ => "[object Object]"
  end.

Definition js_of_name (o : option string) : JsValue :=
  match o with Some s => JsString s | None => JsNull end.

(** ** The registry of operator types ([init] hook)

    [codecsByFilterTypeName] starts as the object literal [{}] and is used as
    a map from operator type names to groups.  Its own properties are kept
    in a [gmap]; reading [codecsByFilterTypeName[name]] also finds the
    members every object inherits from [Object.prototype]. *)

(** The members of [Object.prototype]; each of them is truthy. *)
Definition objectPrototypeMembers : list string :=
  ["constructor"; "__defineGetter__"; "__defineSetter__"; "hasOwnProperty";
   "__lookupGetter__"; "__lookupSetter__"; "isPrototypeOf";
   "propertyIsEnumerable"; "toString"; "valueOf"; "__proto__";
   "toLocaleString"].

Definition inheritedFromObjectPrototype (key : string) : bool :=
  existsb (String.eqb key) objectPrototypeMembers.

Module Group.
(** An entry of [codecsByFilterTypeName]. *)
Record t : Type := Mk {
  isList : bool;
  relatedTypeName : string;
  pgCodecs : list Codec;
  inputTypeName : string;
  rangeElementInputTypeName : option string;
  domainBaseTypeName : option string
}.

(** [group[key]] for the keys the consistency loop reads. *)
Definition get (g : t) (key : string) : JsValue :=
  if String.eqb key "isList" then JsBoolean (isList g)
  else if String.eqb key "relatedTypeName" then JsString (relatedTypeName g)
  else if String.eqb key "inputTypeName" then JsString (inputTypeName g)
  else if String.eqb key "rangeElementInputTypeName"
  then js_of_name (rangeElementInputTypeName g)
  else if String.eqb key "domainBaseTypeName"
  then js_of_name (domainBaseTypeName g)
  else JsUndefined.

(** [group.pgCodecs.push(codec)]. *)
Definition push (g : t) (codec : Codec) : t :=
  {| isList := isList g;
     relatedTypeName := relatedTypeName g;
     pgCodecs := pgCodecs g ++ [codec];
     inputTypeName := inputTypeName g;
     rangeElementInputTypeName := rangeElementInputTypeName g;
     domainBaseTypeName := domainBaseTypeName g |}.
End Group.

(** [digest[key]]. *)
Definition Digest_get (d : Digest) (key : string) : JsValue :=
  if String.eqb key "isList" then JsBoolean (isList d)
  else if String.eqb key "operatorsTypeName" then JsString (operatorsTypeName d)
  else if String.eqb key "relatedTypeName" then JsString (relatedTypeName d)
  else if String.eqb key "inputTypeName" then JsString (inputTypeName d)
  else if String.eqb key "rangeElementInputTypeName"
  then js_of_name (rangeElementInputTypeName d)
  else if String.eqb key "domainBaseTypeName"
  then js_of_name (domainBaseTypeName d)
  else JsUndefined.

Definition checkedKeys : list string :=
  ["isList"; "relatedTypeName"; "inputTypeName"; "rangeElementInputTypeName"].

(** The first member of a group, built from its digest. *)
Definition newGroup (codec : Codec) (digest : Digest) : Group.t :=
  {| Group.isList := isList digest;
     Group.relatedTypeName := relatedTypeName digest;
     Group.pgCodecs := [codec];
     Group.inputTypeName := inputTypeName digest;
     Group.rangeElementInputTypeName := rangeElementInputTypeName digest;
     Group.domainBaseTypeName := domainBaseTypeName digest |}.

Definition mismatchMessage (key : string) (existing : Group.t)
    (codec : Codec) (digest : Digest) : string :=
  key ++ " mismatch: existing codecs ("
      ++ join ", " (map name (Group.pgCodecs existing))
      ++ ") had " ++ key ++ " = " ++ toString (Group.get existing key)
      ++ ", but " ++ name codec ++ " instead has " ++ key ++ " = "
      ++ toString (Digest_get digest key).

(** The inner [for (const key of [...])] loop: the first key on which the
    digest and the group differ throws. *)
Fixpoint checkKeys (keys : list string) (existing : Group.t)
    (codec : Codec) (digest : Digest) : JsError + unit :=
  match keys with
  | [] => inr tt
  | key :: rest =>
    if bool_decide (Digest_get digest key <> Group.get existing key)
    then inl (new_Error (mismatchMessage key existing codec digest))
    else checkKeys rest existing codec digest
  end.

(** What one call of [registerInputObjectType] carries. *)
Inductive Scope : Type :=
| ScopeFilter (pgCodec : Codec)
| ScopeOperators (pgCodecs : list Codec) (inputTypeName : string)
    (rangeElementInputTypeName domainBaseTypeName : option string).

Record Registration : Type := MkRegistration {
  reg_scope : Scope;
  reg_description : string;
  reg_origin : string
}.

Section Registry.

Variable pg : DataplanPg.
Variable build : Build.

(** One turn of the loop over [build.allPgCodecs] that fills
    [codecsByFilterTypeName]. *)
Definition registerCodec (codecsByFilterTypeName : gmap string Group.t)
    (codec : Codec) : JsError + gmap string Group.t :=
  match connectionFilterOperatorsDigest pg build codec with
  | None => inr codecsByFilterTypeName
  | Some digest =>
    match codecsByFilterTypeName !! operatorsTypeName digest with
    | None =>
      if inheritedFromObjectPrototype (operatorsTypeName digest)
      then
        (* The inherited member is truthy, so the [else] branch runs.  The
           member has no [isList]: [digest.isList !== undefined] holds, and
           the message of the error to throw reads [.pgCodecs.map] of the
           member, where [pgCodecs] is [undefined]. *)
        inl (undefinedMemberError "map")
      else
        inr (<[operatorsTypeName digest := newGroup codec digest]>
               codecsByFilterTypeName)
    | Some existing =>
      match checkKeys checkedKeys existing codec digest with
      | inl e => inl e
      | inr _ =>
        inr (<[operatorsTypeName digest := Group.push existing codec]>
               codecsByFilterTypeName)
      end
    end
  end.

Fixpoint registerCodecs (codecsByFilterTypeName : gmap string Group.t)
    (codecs : list Codec) : JsError + gmap string Group.t :=
  match codecs with
  | [] => inr codecsByFilterTypeName
  | codec :: rest =>
    match registerCodec codecsByFilterTypeName codec with
    | inl e => inl e
    | inr m => registerCodecs m rest
    end
  end.

Definition codecsByFilterTypeName (codecs : list Codec)
  : JsError + gmap string Group.t :=
  registerCodecs ∅ codecs.

(** The filter type of every codec that has columns (first loop). *)
Definition filterTypeRegistrations (codecs : list Codec)
  : list (string * Registration) :=
  flat_map
    (fun pgCodec =>
       if negb (truthy (columns pgCodec)) || isAnonymous pgCodec then []
       else
         match truthy_name
                 (getGraphQLTypeNameByPgCodec build pgCodec Output) with
         | None => []
         | Some nodeTypeName =>
           [(filterType (inflection build) nodeTypeName,
             {| reg_scope := ScopeFilter pgCodec;
                reg_description :=
                  "A filter to be used against `" ++ nodeTypeName
                  ++ "` object types. All fields are combined with a logical ‘and.’";
                reg_origin := "PgConnectionArgFilterPlugin" |})]
         end)
    codecs.

(** The operator type registered for one group (last loop). *)
Definition operatorsRegistration (g : Group.t) : Registration :=
  {| reg_scope :=
       ScopeOperators (Group.pgCodecs g) (Group.inputTypeName g)
         (Group.rangeElementInputTypeName g) (Group.domainBaseTypeName g);
     reg_description :=
       "A filter to be used against " ++ Group.relatedTypeName g
       ++ (if Group.isList g then " List" else "")
       ++ " fields. All fields are combined with a logical ‘and.’";
     reg_origin := "PgConnectionArgFilterPlugin" |}.

(** The [init] callback: the calls of [registerInputObjectType] it makes,
    the operator types keyed by their name, or the error that aborts. *)
Definition init_callback
  : JsError + (list (string * Registration) * gmap string Registration) :=
  let filterTypes := filterTypeRegistrations (allPgCodecs build) in
  match codecsByFilterTypeName (allPgCodecs build) with
  | inl e => inl e
  | inr groups => inr (filterTypes, operatorsRegistration <$> groups)
  end.

End Registry.

(** ** [escapeLikeWildcards] *)

(** The guard is ["string" !== typeof input]; only [JsString] has that
    [typeof]. *)
Definition escapeLikeWildcards (input : JsValue) : JsError + string :=
  match input with
  | JsString s =>
    inr (join "\_" (split (join "\%" (split s "%"%char)) "_"%char))
  | _ => inl (new_Error "Non-string input was provided to escapeLikeWildcards")
  end.

(** The same result said character by character: [%] and [_] get a
    backslash in front, every other character stays. *)
Fixpoint escapeChars (s : string) : string :=
  match s with
  | EmptyString => ""
  | String c rest =>
    (if Ascii.eqb c "%"%char then "\%"
     else if Ascii.eqb c "_"%char then "\_"
     else String c "") ++ escapeChars rest
  end.

(** Every occurrence of the character [c] replaced by [rep]. *)
Fixpoint replaceAll (c : ascii) (rep : string) (s : string) : string :=
  match s with
  | EmptyString => ""
  | String x rest =>
    (if Ascii.eqb x c then rep else String x "") ++ replaceAll c rep rest
  end.

(** ** Plan-time state

    [applyPlan] runs while the operation is planned.  It can write to the
    console, assign to the where-step it obtained from the connection, and
    throw.  The state is kept when an error is thrown, so that what was
    written before the throw stays visible. *)

Record ColSpec : Type := MkColSpec {
  columnName : string;
  col : PgTypeColumn
}.

(** The step returned by [$select.wherePlan()]: its
    [extensions.pgFilterColumn] and the conditions attached so far. *)
Record WhereStep : Type := MkWhereStep {
  pgFilterColumn : option ColSpec;
  conditions : list string
}.

Record PlanState : Type := MkPlanState {
  console : list string;
  where_ : WhereStep
}.

Definition Plan (A : Type) : Type := PlanState -> (JsError + A) * PlanState.

#[global] Instance Plan_ret : MRet Plan := fun A a st => (inr a, st).

#[global] Instance Plan_bind : MBind Plan := fun A B k m st =>
  match m st with
  | (inl e, st') => (inl e, st')
  | (inr a, st') => k a st'
  end.

Definition throw {A} (e : JsError) : Plan A := fun st => (inl e, st).

Definition console_log (line : string) : Plan unit :=
  fun st => (inr tt, {| console := console st ++ [line]; where_ := where_ st |}).

(** [$connection.getSubplan().wherePlan()]. *)
Definition wherePlan : Plan WhereStep := fun st => (inr (where_ st), st).

(** [$where.extensions.pgFilterColumn = colSpec]. *)
Definition set_pgFilterColumn (colSpec : ColSpec) : Plan unit :=
  fun st =>
    (inr tt,
     {| console := console st;
        where_ := {| pgFilterColumn := Some colSpec;
                     conditions := conditions (where_ st) |} |}).

(** The step [fieldArgs.getRaw()] returns.  [evalIsEmpty] is a member of
    some input steps only: [None] when the step has no such member, else
    what the call returns. *)
Record RawStep : Type := MkRawStep {
  evalIsEmpty : option bool;
  evalIs : JsValue -> bool
}.

Record FieldArgs : Type := MkFieldArgs {
  getRaw : RawStep;
  apply : Plan unit
}.

Definition emptyObjectMessage : string :=
  "Empty objects are forbidden in filter argument input.".

Definition nullLiteralMessage : string :=
  "Null literals are forbidden in filter argument input.".

(** The two errors [applyPlan] throws.  The object handed to
    [Object.assign] has no property. *)
Definition EmptyFilterObject : JsError :=
  Object_assign (new_Error emptyObjectMessage) [].

Definition NullFilterLiteral : JsError :=
  Object_assign (new_Error nullLiteralMessage) [].

(** An error is safe to show to the caller when it carries a marker of that
    name among its own properties. *)
Definition hasMarker (marker : string) (e : JsError) : bool :=
  existsb (fun p => String.eqb (fst p) marker) (props e).

(** ** The column filter fields *)

Section ColumnsPlugin.

Variable pg : DataplanPg.
Variable build : Build.

Definition applyPlan (colSpec : ColSpec) (fieldArgs : FieldArgs)
  : Plan unit :=
  let raw := getRaw fieldArgs in
  if negb (connectionFilterAllowEmptyObjectInput (options build))
     && truthy (evalIsEmpty raw)
     && default false (evalIsEmpty raw)
  then throw EmptyFilterObject
  else
    console_log "Check..." ;;
    (if negb (connectionFilterAllowNullInput (options build))
     then console_log "CHECK" else mret tt) ;;
    if negb (connectionFilterAllowNullInput (options build))
       && evalIs raw JsNull
    then throw NullFilterLiteral
    else
      _ ← wherePlan;
      set_pgFilterColumn colSpec ;;
      apply fieldArgs.

Record FieldSpec : Type := MkFieldSpec {
  fs_fieldName : string;
  isPgConnectionFilterField : bool;
  fs_description : string;
  fs_type : GraphQLType;
  fs_applyPlan : FieldArgs -> Plan unit
}.

(** The body of the loop over [Object.entries(codec.columns)]: the field
    added for one column, or nothing when the loop says [continue]. *)
Definition columnFilterField (codec : Codec)
    (entry : string * PgTypeColumn) : option (string * FieldSpec) :=
  let '(columnName, column_) := entry in
  let behavior :=
    pgGetBehavior build
      [extensions (column_codec column_); col_extensions column_] in
  if negb (behavior_matches build behavior "filter" "filter") then None else
  let colSpec := {| columnName := columnName; col := column_ |} in
  let fieldName := column (inflection build) codec columnName in
  match connectionFilterOperatorsDigest pg build (column_codec column_) with
  | None => None
  | Some digest =>
    match getTypeByName build (operatorsTypeName digest) with
    | None => None
    | Some OperatorsType =>
      Some (fieldName,
            {| fs_fieldName := fieldName;
               isPgConnectionFilterField := true;
               fs_description :=
                 "Filter by the object’s `" ++ fieldName ++ "` field.";
               fs_type := OperatorsType;
               fs_applyPlan := applyPlan colSpec |})
    end
  end.

(** The fields the hook adds for a codec, in the order of its columns. *)
Definition columnFilterFields (codec : Codec)
  : list (string * FieldSpec) :=
  match columns codec with
  | None => []
  | Some cols => omap (columnFilterField codec) cols
  end.

Record FieldsScope : Type := MkFieldsScope {
  pgCodec : option Codec;
  isPgConnectionFilter : bool
}.

(** [build.extend(fields, extra, hint)] is the host's; it may refuse. *)
Variable extend_fields :
  gmap string FieldSpec -> gmap string FieldSpec -> string ->
  JsError + gmap string FieldSpec.

Fixpoint extendAll (fields : gmap string FieldSpec)
    (added : list (string * FieldSpec)) : JsError + gmap string FieldSpec :=
  match added with
  | [] => inr fields
  | (fieldName, spec) :: rest =>
    match extend_fields fields {[ fieldName := spec ]}
            "Adding column-based filtering" with
    | inl e => inl e
    | inr fields' => extendAll fields' rest
    end
  end.

Definition GraphQLInputObjectType_fields (inFields : gmap string FieldSpec)
    (scope : FieldsScope) : JsError + gmap string FieldSpec :=
  match pgCodec scope with
  | Some codec =>
    if negb (isPgConnectionFilter scope) || negb (truthy (columns codec))
    then inr inFields
    else extendAll inFields (columnFilterFields codec)
  | None => inr inFields
  end.

End ColumnsPlugin.

(** ** The [filter] argument of connections and simple collections *)

Record Source : Type := MkSource {
  src_codec : Codec;
  src_extensions : Extensions;
  parameters : option (list string)
}.

(** The two [plan] functions of the argument: through the connection's
    subplan, or on the select step itself. *)
Inductive ArgPlan : Type := PlanWhereOfSubplan | PlanWhere.

Record ArgSpec : Type := MkArgSpec {
  arg_description : string;
  arg_type : GraphQLType;
  arg_plan : ArgPlan
}.

Record ArgsScope : Type := MkArgsScope {
  isPgFieldConnection : bool;
  isPgFieldSimpleCollection : bool;
  pgSource : option Source;
  fieldName : string;
  Self_name : string
}.

Section ArgInjector.

Variable build : Build.

(** [build.extend(args, extra, hint)] is the host's; it may refuse. *)
Variable extend_args :
  gmap string ArgSpec -> gmap string ArgSpec -> string ->
  JsError + gmap string ArgSpec.

Definition defaultBehavior (source : Source) : string :=
  if truthy (parameters source)
     && negb (connectionFilterSetofFunctions (options build))
  then "-filter" else "filter".

Definition sourceBehavior (source : Source) : string :=
  pgGetBehavior build
    [extensions (src_codec source); src_extensions source].

(** The capability check of the hook. *)
Definition filterMatches (source : Source) : bool :=
  behavior_matches build (sourceBehavior source) "filter"
    (defaultBehavior source).

Definition filterArg (scope : ArgsScope) (FilterType : GraphQLType)
  : ArgSpec :=
  {| arg_description :=
       "A filter to be used in determining which values should be returned by the collection.";
     arg_type := FilterType;
     arg_plan := if isPgFieldConnection scope
                 then PlanWhereOfSubplan else PlanWhere |}.

Definition GraphQLObjectType_fields_field_args
    (args : gmap string ArgSpec) (scope : ArgsScope)
  : JsError + gmap string ArgSpec :=
  let shouldAddFilter :=
    isPgFieldConnection scope || isPgFieldSimpleCollection scope in
  if negb shouldAddFilter then inr args else
  match pgSource scope with
  | None => inr args
  | Some source =>
    if negb (filterMatches source) then inr args else
    let returnCodec := src_codec source in
    match getGraphQLTypeByPgCodec build returnCodec Output with
    | None => inr args
    | Some nodeType =>
      let nodeTypeName := type_name nodeType in
      let filterTypeName := filterType (inflection build) nodeTypeName in
      match getTypeByName build filterTypeName with
      | None => inr args
      | Some FilterType =>
        extend_args args {[ "filter" := filterArg scope FilterType ]}
          ("Adding connection filter arg to field '" ++ fieldName scope
           ++ "' of '" ++ Self_name scope ++ "'")
      end
    end
  end.

End ArgInjector.

(** ** A small catalogue

    Concrete codecs and a concrete [build], used to run the definitions. *)

Module Sample.

Definition noExt : Extensions := {| tags_behavior := [] |}.

Definition base (n : string) : Codec :=
  {| name := n; columns := None; isAnonymous := false;
     polymorphism := false; arrayOfCodec := None; rangeOfCodec := None;
     domainOfCodec := None; extensions := noExt |}.

Definition listOf (n : string) (inner : Codec) : Codec :=
  {| name := n; columns := None; isAnonymous := false;
     polymorphism := false; arrayOfCodec := Some inner;
     rangeOfCodec := None; domainOfCodec := None; extensions := noExt |}.

Definition rangeOf (n : string) (inner : Codec) : Codec :=
  {| name := n; columns := None; isAnonymous := false;
     polymorphism := false; arrayOfCodec := None;
     rangeOfCodec := Some inner; domainOfCodec := None;
     extensions := noExt |}.

Definition domainOf (n : string) (inner : Codec) : Codec :=
  {| name := n; columns := None; isAnonymous := false;
     polymorphism := false; arrayOfCodec := None; rangeOfCodec := None;
     domainOfCodec := Some inner; extensions := noExt |}.

Definition void : Codec := base "void".
Definition json : Codec := base "json".
Definition bpchar : Codec := base "bpchar".
Definition char : Codec := base "char".
Definition pgname : Codec := base "name".
Definition text : Codec := base "text".
Definition varchar : Codec := base "varchar".
Definition citext : Codec := base "citext".
Definition int4 : Codec := base "int4".

Definition int4range : Codec := rangeOf "int4range" int4.
Definition int4rangeArray : Codec := listOf "int4range[]" int4range.
Definition email : Codec := domainOf "email" text.
Definition positiveRange : Codec := domainOf "positive_range" int4range.

(** The unwrapping of domain, array and range layers. *)
Fixpoint innerCodec (c : Codec) : Codec :=
  match domainOfCodec c with
  | Some d => innerCodec d
  | None =>
    match arrayOfCodec c with
    | Some a => innerCodec a
    | None =>
      match rangeOfCodec c with
      | Some r => innerCodec r
      | None => c
      end
    end
  end.

Definition pg : DataplanPg :=
  {| TYPES_void := void; TYPES_json := json; TYPES_bpchar := bpchar;
     TYPES_char := char; TYPES_name := pgname; TYPES_text := text;
     TYPES_varchar := varchar; TYPES_citext := citext;
     getInnerCodec := fun c => Some (innerCodec c);
     isEnumCodec := fun _ => false |}.

Definition typeName (c : Codec) (s : Situation) : option string :=
  let n := name (innerCodec c) in
  if String.eqb n "int4" then
    match rangeOfCodec c, domainOfCodec c, s with
    | None, None, _ => Some "Int"
    | _, _, Output => Some "IntRange"
    | _, _, Input => Some "IntRangeInput"
    end
  else if String.eqb n "text" then Some "String"
  else None.

Definition person : Codec :=
  {| name := "person";
     columns := Some [("id", MkColumn int4 noExt);
                      ("name", MkColumn text noExt);
                      ("aliases", MkColumn (listOf "text[]" text) noExt);
                      ("secret",
                       MkColumn text {| tags_behavior := ["-filter"] |})];
     isAnonymous := false; polymorphism := false; arrayOfCodec := None;
     rangeOfCodec := None; domainOfCodec := None; extensions := noExt |}.

(** The last tag that speaks about [filter] decides, the default policy
    being read first. *)
Definition tagStep (acc : bool) (tag : string) : bool :=
  if String.eqb tag "filter" || String.eqb tag "+filter" then true
  else if String.eqb tag "-filter" then false
  else acc.

Definition matches (behavior filter defaultBehavior : string) : bool :=
  fold_left tagStep (split (defaultBehavior ++ " " ++ behavior) " "%char)
    false.

(** The polarity of the last explicit [filter] tag of a behaviour string,
    if it has one. *)
Definition explicitStep (acc : option bool) (tag : string) : option bool :=
  if String.eqb tag "filter" || String.eqb tag "+filter" then Some true
  else if String.eqb tag "-filter" then Some false
  else acc.

Definition explicitTag (behavior : string) : option bool :=
  fold_left explicitStep (split behavior " "%char) None.

Definition opts : Options :=
  {| connectionFilterAllowedFieldTypes := None;
     connectionFilterArrays := true;
     connectionFilterSetofFunctions := false;
     connectionFilterAllowNullInput := false;
     connectionFilterAllowEmptyObjectInput := false |}.

Definition lenient : Options :=
  {| connectionFilterAllowedFieldTypes := None;
     connectionFilterArrays := true;
     connectionFilterSetofFunctions := true;
     connectionFilterAllowNullInput := true;
     connectionFilterAllowEmptyObjectInput := true |}.

Definition buildWith (o : Options) (codecs : list Codec) : Build :=
  {| inflection :=
       {| filterType := fun n => n ++ "Filter";
          filterFieldType := fun n => n ++ "Filter";
          filterFieldListType := fun n => n ++ "ListFilter";
          column := fun _ columnName => columnName |};
     options := o;
     allPgCodecs := codecs;
     getGraphQLTypeNameByPgCodec := typeName;
     getTypeMetaByName := fun _ => Some tt;
     getGraphQLTypeByPgCodec := fun c _ =>
       if truthy (columns c) then Some {| type_name := name c |} else None;
     getTypeByName := fun n => Some {| type_name := n |};
     pgGetBehavior := fun exts =>
       join " " (flat_map tags_behavior exts);
     behavior_matches := matches |}.

Definition build : Build := buildWith opts [text; int4; email; person].

(** Argument steps: an empty object, a [null] literal, a filled object,
    and a step that is not [null] and has no [evalIsEmpty] member. *)
Definition emptyObject : RawStep :=
  {| evalIsEmpty := Some true; evalIs := fun _ => false |}.
Definition nullLiteral : RawStep :=
  {| evalIsEmpty := None;
     evalIs := fun v => bool_decide (v = JsNull) |}.
Definition filled : RawStep :=
  {| evalIsEmpty := Some false; evalIs := fun _ => false |}.
Definition leaf : RawStep :=
  {| evalIsEmpty := None; evalIs := fun _ => false |}.

(** An argument whose [apply] attaches one condition that names the
    column it found in the slot. *)
Definition attach : Plan unit := fun st =>
  (inr tt,
   {| console := console st;
      where_ :=
        {| pgFilterColumn := pgFilterColumn (where_ st);
           conditions :=
             conditions (where_ st)
             ++ [match pgFilterColumn (where_ st) with
                 | Some cs => columnName cs ++ " = $1"
                 | None => "?"
                 end] |} |}).

Definition argsOf (raw : RawStep) : FieldArgs :=
  {| getRaw := raw; apply := attach |}.

Definition st0 : PlanState :=
  {| console := [];
     where_ := {| pgFilterColumn := None; conditions := [] |} |}.

Definition nameCol : ColSpec :=
  {| columnName := "name"; col := MkColumn text noExt |}.

Definition table : Source :=
  {| src_codec := person; src_extensions := noExt; parameters := None |}.
Definition proc : Source :=
  {| src_codec := person; src_extensions := noExt;
     parameters := Some ["q"] |}.
Definition procOptIn : Source :=
  {| src_codec := person;
     src_extensions := {| tags_behavior := ["+filter"] |};
     parameters := Some [] |}.
Definition tableOptOut : Source :=
  {| src_codec := person;
     src_extensions := {| tags_behavior := ["-filter"] |};
     parameters := None |}.

(** A host [extend] that refuses to overwrite a key. *)
Definition extend {A} (base extra : gmap string A) (hint : string)
  : JsError + gmap string A :=
  if bool_decide (base ##ₘ extra) then inr (base ∪ extra)
  else inl (new_Error ("Overwriting key is not allowed: " ++ hint)).

Definition listing (s : Source) : ArgsScope :=
  {| isPgFieldConnection := true; isPgFieldSimpleCollection := false;
     pgSource := Some s; fieldName := "allPeople"; Self_name := "Query" |}.

End Sample.

(** ** Vocabulary of the statements about the registry *)

(** The digest and the group hold the same value under each of the four
    checked keys. *)
Definition agrees (g : Group.t) (d : Digest) : Prop :=
  isList d = Group.isList g
  /\ relatedTypeName d = Group.relatedTypeName g
  /\ inputTypeName d = Group.inputTypeName g
  /\ rangeElementInputTypeName d = Group.rangeElementInputTypeName g.

(** Two digests hold the same value under each of the four checked keys;
    [operatorsTypeName] and [domainBaseTypeName] are not looked at. *)
Definition sameChecked (d1 d2 : Digest) : Prop :=
  isList d1 = isList d2
  /\ relatedTypeName d1 = relatedTypeName d2
  /\ inputTypeName d1 = inputTypeName d2
  /\ rangeElementInputTypeName d1 = rangeElementInputTypeName d2.

(** The first checked key, in the order of the loop, under which the digest
    and the group differ. *)
Definition firstMismatch (g : Group.t) (d : Digest) : option string :=
  List.find (fun key => bool_decide (Digest_get d key <> Group.get g key))
    checkedKeys.

Section RegistryVocabulary.

Variable pg : DataplanPg.
Variable build : Build.

(** The codec has a digest and its [operatorsTypeName] is [k]. *)
Definition hasOperatorsTypeName (k : string) (c : Codec) : bool :=
  match connectionFilterOperatorsDigest pg build c with
  | Some d => String.eqb (operatorsTypeName d) k
  | None => false
  end.

(** The codecs of a catalogue that fall under [k], in catalogue order. *)
Definition members (k : string) (l : list Codec) : list Codec :=
  List.filter (hasOperatorsTypeName k) l.

End RegistryVocabulary.

(** ** Vocabulary of the statements about [applyPlan] *)

(** The state once the two [console.log] lines between the checks are
    written. *)
Definition logged (build : Build) (st : PlanState) : PlanState :=
  {| console :=
       (console st ++ ["Check..."]
        ++ (if connectionFilterAllowNullInput (options build)
            then [] else ["CHECK"]))%list;
     where_ := where_ st |}.

(** The state once the slot of the where-step holds [colSpec]. *)
Definition tagged (colSpec : ColSpec) (st : PlanState) : PlanState :=
  {| console := console st;
     where_ := {| pgFilterColumn := Some colSpec;
                  conditions := conditions (where_ st) |} |}.

(** The argument is reported empty and empty objects are forbidden. *)
Definition emptyRejected (build : Build) (raw : RawStep) : Prop :=
  connectionFilterAllowEmptyObjectInput (options build) = false
  /\ evalIsEmpty raw = Some true.

(** The argument is the [null] literal and [null] literals are forbidden. *)
Definition nullRejected (build : Build) (raw : RawStep) : Prop :=
  connectionFilterAllowNullInput (options build) = false
  /\ evalIs raw JsNull = true.

(** [build] with another value of [connectionFilterAllowEmptyObjectInput]. *)
Definition withAllowEmptyObjectInput (allow : bool) (build : Build) : Build :=
  {| inflection := inflection build;
     options :=
       {| connectionFilterAllowedFieldTypes :=
            connectionFilterAllowedFieldTypes (options build);
          connectionFilterArrays := connectionFilterArrays (options build);
          connectionFilterSetofFunctions :=
            connectionFilterSetofFunctions (options build);
          connectionFilterAllowNullInput :=
            connectionFilterAllowNullInput (options build);
          connectionFilterAllowEmptyObjectInput := allow |};
     allPgCodecs := allPgCodecs build;
     getGraphQLTypeNameByPgCodec := getGraphQLTypeNameByPgCodec build;
     getTypeMetaByName := getTypeMetaByName build;
     getGraphQLTypeByPgCodec := getGraphQLTypeByPgCodec build;
     getTypeByName := getTypeByName build;
     pgGetBehavior := pgGetBehavior build;
     behavior_matches := behavior_matches build |}.

(** ** Vocabulary of the further statements *)

(** The two characters [escapeLikeWildcards] looks for. *)
Definition isWildcard (c : ascii) : bool :=
  Ascii.eqb c "%"%char || Ascii.eqb c "_"%char.

Fixpoint countWildcards (s : string) : nat :=
  match s with
  | EmptyString => 0
  | String c rest => (if isWildcard c then 1 else 0) + countWildcards rest
  end.

(** [build] with other options. *)
Definition withOptions (o : Options) (build : Build) : Build :=
  {| inflection := inflection build;
     options := o;
     allPgCodecs := allPgCodecs build;
     getGraphQLTypeNameByPgCodec := getGraphQLTypeNameByPgCodec build;
     getTypeMetaByName := getTypeMetaByName build;
     getGraphQLTypeByPgCodec := getGraphQLTypeByPgCodec build;
     getTypeByName := getTypeByName build;
     pgGetBehavior := pgGetBehavior build;
     behavior_matches := behavior_matches build |}.

(** A codec and the bases under it, following [domainOfCodec]. *)
Fixpoint domainChain (c : Codec) : list Codec :=
  c :: match domainOfCodec c with
       | Some d => domainChain d
       | None => []
       end.

(** The tests [isSuitableForFiltering] makes on one codec, the descent into
    the domain's base left out. *)
Definition suitableShape (pg : DataplanPg) (c : Codec) : bool :=
  negb (Codec_eqb c (TYPES_void pg))
  && negb (truthy (columns c))
  && negb (isAnonymous c)
  && negb (truthy (arrayOfCodec c))
  && negb (polymorphism c).

(** Any two codecs of the catalogue whose digests share an
    [operatorsTypeName] hold the same values under the checked keys. *)
Definition consistent (pg : DataplanPg) (build : Build) (l : list Codec)
  : Prop :=
  forall c1 c2 d1 d2,
    In c1 l -> In c2 l ->
    connectionFilterOperatorsDigest pg build c1 = Some d1 ->
    connectionFilterOperatorsDigest pg build c2 = Some d2 ->
    operatorsTypeName d1 = operatorsTypeName d2 ->
    sameChecked d1 d2.

(** No codec of the catalogue has a digest whose operator type name is a
    member of [Object.prototype]. *)
Definition noInheritedName (pg : DataplanPg) (build : Build)
    (l : list Codec) : Prop :=
  forall c d,
    In c l ->
    connectionFilterOperatorsDigest pg build c = Some d ->
    inheritedFromObjectPrototype (operatorsTypeName d) = false.

(** The column passes the three tests of the loop over the columns. *)
Definition columnQualifies (pg : DataplanPg) (build : Build)
    (column_ : PgTypeColumn) : bool :=
  behavior_matches build
    (pgGetBehavior build
       [extensions (column_codec column_); col_extensions column_])
    "filter" "filter"
  && match connectionFilterOperatorsDigest pg build (column_codec column_) with
     | Some digest => truthy (getTypeByName build (operatorsTypeName digest))
     | None => false
     end.

(** Further inputs to run the definitions on. *)
Module Cases.

Definition onlyInt : Options :=
  {| connectionFilterAllowedFieldTypes := Some ["Int"];
     connectionFilterArrays := true;
     connectionFilterSetofFunctions := false;
     connectionFilterAllowNullInput := false;
     connectionFilterAllowEmptyObjectInput := false |}.

Definition noTypes : Options :=
  {| connectionFilterAllowedFieldTypes := Some [];
     connectionFilterArrays := true;
     connectionFilterSetofFunctions := false;
     connectionFilterAllowNullInput := false;
     connectionFilterAllowEmptyObjectInput := false |}.

Definition noArrays : Options :=
  {| connectionFilterAllowedFieldTypes := None;
     connectionFilterArrays := false;
     connectionFilterSetofFunctions := true;
     connectionFilterAllowNullInput := true;
     connectionFilterAllowEmptyObjectInput := true |}.

(** A catalogue in which the table type has its GraphQL name. *)
Definition typeName (c : Codec) (s : Situation) : option string :=
  if truthy (columns c) then
    match s with
    | Output => Some "Person"
    | Input => Some "PersonInput"
    end
  else Sample.typeName c s.

Definition build : Build :=
  {| inflection := inflection Sample.build;
     options := Sample.opts;
     allPgCodecs := [Sample.text; Sample.int4; Sample.email; Sample.person];
     getGraphQLTypeNameByPgCodec := typeName;
     getTypeMetaByName := fun _ => Some tt;
     getGraphQLTypeByPgCodec := fun c s =>
       (fun n => {| type_name := n |}) <$> typeName c s;
     getTypeByName := fun n => Some {| type_name := n |};
     pgGetBehavior := pgGetBehavior Sample.build;
     behavior_matches := Sample.matches |}.

(** A catalogue whose inflector names every operator type [constructor]. *)
Definition inheritedName : Build :=
  {| inflection :=
       {| filterType := fun n => n ++ "Filter";
          filterFieldType := fun _ => "constructor";
          filterFieldListType := fun n => n ++ "ListFilter";
          column := fun _ columnName => columnName |};
     options := Sample.opts;
     allPgCodecs := [Sample.text; Sample.email];
     getGraphQLTypeNameByPgCodec := Sample.typeName;
     getTypeMetaByName := fun _ => Some tt;
     getGraphQLTypeByPgCodec := fun _ _ => None;
     getTypeByName := fun n => Some {| type_name := n |};
     pgGetBehavior := pgGetBehavior Sample.build;
     behavior_matches := Sample.matches |}.

(** A second table type with the columns of [Sample.person]. *)
Definition animal : Codec :=
  {| name := "animal";
     columns := columns Sample.person;
     isAnonymous := false; polymorphism := false; arrayOfCodec := None;
     rangeOfCodec := None; domainOfCodec := None;
     extensions := Sample.noExt |}.

(** A host [extend] that merges two objects whose keys are disjoint and
    throws when a key would be overwritten. *)
Definition extend {A} (base extra : gmap string A) (hint : string)
  : JsError + gmap string A :=
  if bool_decide (base ##ₘ extra) then inr (base ∪ extra)
  else inl (new_Error ("Overwriting key is not allowed: " ++ hint)).

End Cases.

(** * Properties *)

(** ** Identity of codecs *)

Lemma Extensions_eqb_eq (a b : Extensions) :
  Extensions_eqb a b = true <-> a = b.
Proof.
  unfold Extensions_eqb. rewrite bool_decide_eq_true.
  destruct a, b; simpl. split; congruence.
Qed.

Lemma Codec_eqb_eq : forall a b : Codec, Codec_eqb a b = true -> a = b.
Proof.
  fix IH 1.
  intros [n1 cols1 an1 p1 ar1 r1 d1 e1] [n2 cols2 an2 p2 ar2 r2 d2 e2].
  simpl. rewrite !andb_true_iff.
  intros [[[[[[[Hn Hc] Han] Hp] Har] Hr] Hd] He].
  apply String.eqb_eq in Hn. apply Bool.eqb_prop in Han, Hp.
  apply Extensions_eqb_eq in He. subst.
  assert (Hopt : forall x y : option Codec,
             match x, y with
             | None, None => true
             | Some x, Some y => Codec_eqb x y
             | _, _ => false
             end = true -> x = y).
  { intros [x|] [y|] H; try discriminate; [|reflexivity].
    f_equal. apply IH. exact H. }
  apply Hopt in Har, Hr, Hd. subst.
  assert (cols1 = cols2) as ->; [|reflexivity].
  destruct cols1 as [l1|], cols2 as [l2|]; try discriminate; [|reflexivity].
  f_equal. revert l1 l2 Hc.
  fix IHl 1.
  intros [|[s1 [c1 x1]] t1] [|[s2 [c2 x2]] t2]; try discriminate.
  - reflexivity.
  - rewrite !andb_true_iff. intros [[[Hs Hcc] Hx] Ht].
    apply String.eqb_eq in Hs. apply Extensions_eqb_eq in Hx.
    apply IH in Hcc. apply IHl in Ht. subst. reflexivity.
Qed.

Lemma Codec_eqb_refl : forall a : Codec, Codec_eqb a a = true.
Proof.
  fix IH 1.
  intros [n cols an p ar r d e].
  assert (Heq : Codec_eqb (MkCodec n cols an p ar r d e)
                  (MkCodec n cols an p ar r d e)
                = (String.eqb n n
                   && match cols with
                      | Some l =>
                        (fix go (l1 l2 : list (string * PgTypeColumn_ Codec))
                           : bool :=
                           match l1, l2 with
                           | [], [] => true
                           | (s1, MkColumn c1 x1) :: t1,
                             (s2, MkColumn c2 x2) :: t2 =>
                             String.eqb s1 s2 && Codec_eqb c1 c2
                             && Extensions_eqb x1 x2 && go t1 t2
                           | _, _ => false
                           end) l l
                      | None => true
                      end
                   && Bool.eqb an an && Bool.eqb p p
                   && match ar with Some x => Codec_eqb x x | None => true end
                   && match r with Some x => Codec_eqb x x | None => true end
                   && match d with Some x => Codec_eqb x x | None => true end
                   && Extensions_eqb e e))
    by (destruct cols, ar, r, d; reflexivity).
  rewrite Heq. clear Heq.
  rewrite String.eqb_refl, !Bool.eqb_reflx.
  rewrite (proj2 (Extensions_eqb_eq e e) eq_refl).
  assert (Har : match ar with Some x => Codec_eqb x x | None => true end
                = true) by (destruct ar; [apply IH | reflexivity]).
  assert (Hr : match r with Some x => Codec_eqb x x | None => true end
               = true) by (destruct r; [apply IH | reflexivity]).
  assert (Hd : match d with Some x => Codec_eqb x x | None => true end
               = true) by (destruct d; [apply IH | reflexivity]).
  rewrite Har, Hr, Hd, !andb_true_r. clear Har Hr Hd.
  destruct cols as [l|]; [|reflexivity].
  revert l. fix IHl 1.
  intros [|[s0 [c0 x0]] t0]; [reflexivity|].
  rewrite String.eqb_refl, IH, (proj2 (Extensions_eqb_eq x0 x0) eq_refl), IHl.
  reflexivity.
Qed.

(** [Codec_eqb] decides equality of codecs. *)
Lemma Codec_eqb_spec (a b : Codec) : Codec_eqb a b = true <-> a = b.
Proof.
  split; [apply Codec_eqb_eq|]. intros ->. apply Codec_eqb_refl.
Qed.

(** The [void] codec is never suitable for filtering. *)
Lemma void_not_suitable (pg : DataplanPg) :
  isSuitableForFiltering pg (TYPES_void pg) = false.
Proof.
  destruct (TYPES_void pg) as [n cols an p ar r d e] eqn:Hvoid.
  unfold isSuitableForFiltering. rewrite Hvoid, Codec_eqb_refl. reflexivity.
Qed.

(** ** Strings *)

Lemma append_cons (a : ascii) (s t : string) :
  (String a s ++ t)%string = String a (s ++ t).
Proof. reflexivity. Qed.

Lemma append_empty_r (s : string) : (s ++ "")%string = s.
Proof.
  induction s as [|a s IH]; [reflexivity|].
  rewrite append_cons, IH. reflexivity.
Qed.

Lemma append_assoc (s t u : string) :
  ((s ++ t) ++ u)%string = (s ++ (t ++ u))%string.
Proof.
  induction s as [|a s IH]; [reflexivity|].
  rewrite !append_cons, IH. reflexivity.
Qed.

Lemma split_from_cons (acc s : string) (sep : ascii) :
  exists p rest, split_from acc s sep = p :: rest.
Proof.
  revert acc. induction s as [|c s IH]; intros acc; simpl.
  - eauto.
  - destruct (Ascii.eqb c sep); eauto.
Qed.

Lemma join_cons (sep p : string) (parts : list string) :
  parts <> [] -> join sep (p :: parts) = (p ++ sep ++ join sep parts)%string.
Proof. destruct parts as [|q parts]; [congruence | reflexivity]. Qed.

(** Splitting on a character and joining with [rep] replaces every
    occurrence of the character by [rep]. *)
Lemma join_split_from (rep acc s : string) (c : ascii) :
  join rep (split_from acc s c) = (acc ++ replaceAll c rep s)%string.
Proof.
  revert acc. induction s as [|x s IH]; intros acc.
  - simpl. rewrite append_empty_r. reflexivity.
  - simpl. destruct (Ascii.eqb x c).
    + destruct (split_from_cons "" s c) as (p & rest & Hs).
      rewrite join_cons by (rewrite Hs; discriminate).
      rewrite IH. reflexivity.
    + rewrite IH, append_assoc. reflexivity.
Qed.

Lemma join_split (rep s : string) (c : ascii) :
  join rep (split s c) = replaceAll c rep s.
Proof. unfold split. apply join_split_from. Qed.

Lemma replaceAll_append (c : ascii) (rep s t : string) :
  replaceAll c rep (s ++ t) = (replaceAll c rep s ++ replaceAll c rep t)%string.
Proof.
  induction s as [|x s IH]; [reflexivity|].
  rewrite append_cons. simpl replaceAll. rewrite IH, append_assoc.
  reflexivity.
Qed.

(** Escaping [%] first and [_] second is the same as escaping both in one
    pass: the backslash and the percent sign put in by the first pass are
    left alone by the second. *)
Lemma replaceAll_twice (s : string) :
  replaceAll "_" "\_" (replaceAll "%" "\%" s) = escapeChars s.
Proof.
  induction s as [|x s IH]; [reflexivity|].
  simpl replaceAll. simpl escapeChars. rewrite replaceAll_append, IH.
  destruct (Ascii.eqb x "%") eqn:Hp.
  - reflexivity.
  - destruct (Ascii.eqb x "_") eqn:Hu; simpl; rewrite Hu; reflexivity.
Qed.

Lemma typeof_string (v : JsValue) :
  typeof v = "string" <-> exists s, v = JsString s.
Proof.
  split.
  - destruct v; simpl; try discriminate. eauto.
  - intros [s ->]. reflexivity.
Qed.

(** C8. [escapeLikeWildcards] returns, for a string, the string with every
    [%] replaced by [\%] and every [_] replaced by [\_]; for any value that
    is not a string it throws an [Error] and returns nothing. *)
Theorem escapeLikeWildcards_spec :
  (forall s : string,
      escapeLikeWildcards (JsString s) = inr (escapeChars s)
      /\ escapeLikeWildcards (JsString s)
         = inr (replaceAll "_" "\_" (replaceAll "%" "\%" s)))
  /\ (forall v : JsValue,
         typeof v <> "string" ->
         escapeLikeWildcards v
         = inl (new_Error "Non-string input was provided to escapeLikeWildcards")
         /\ forall out, escapeLikeWildcards v <> inr out).
Proof.
  split.
  - intros s. unfold escapeLikeWildcards.
    rewrite !join_split, replaceAll_twice. split; [reflexivity|].
    rewrite <- replaceAll_twice. reflexivity.
  - intros v Hv. destruct v; simpl; try (split; [reflexivity | discriminate]).
    exfalso. apply Hv. reflexivity.
Qed.

Lemma escapeLikeWildcards_spec_witness :
  escapeLikeWildcards (JsString "50%_off") = inr "50\%\_off"
  /\ typeof (JsNumber 7) <> "string"
  /\ escapeLikeWildcards (JsNumber 7)
     = inl (new_Error "Non-string input was provided to escapeLikeWildcards").
Proof.
  split; [| split].
  - exact (proj1 (proj1 escapeLikeWildcards_spec "50%_off")).
  - discriminate.
  - apply (proj2 escapeLikeWildcards_spec (JsNumber 7)). discriminate.
Defined.

(** ** The classifier *)

Section ClassifierFacts.

Variable pg : DataplanPg.
Variable build : Build.

(** The category is the first test that succeeds, in the order array,
    range, enum, domain; scalar when none does. *)
Lemma category_first_match (codec : Codec) :
  pgConnectionFilterOperatorsCategory pg codec =
  match arrayOfCodec codec, rangeOfCodec codec,
        isEnumCodec pg codec, domainOfCodec codec with
  | Some _, _, _, _ => Array
  | None, Some _, _, _ => Range
  | None, None, true, _ => Enum
  | None, None, false, Some _ => Domain
  | None, None, false, None => Scalar
  end.
Proof.
  unfold pgConnectionFilterOperatorsCategory.
  destruct (arrayOfCodec codec), (rangeOfCodec codec),
    (isEnumCodec pg codec), (domainOfCodec codec); reflexivity.
Qed.

Lemma isSuitableForFiltering_unfold (codec : Codec) :
  isSuitableForFiltering pg codec =
  negb (Codec_eqb codec (TYPES_void pg))
  && negb (truthy (columns codec))
  && negb (isAnonymous codec)
  && negb (truthy (arrayOfCodec codec))
  && negb (polymorphism codec)
  && match domainOfCodec codec with
     | None => true
     | Some d => isSuitableForFiltering pg d
     end.
Proof. destruct codec; reflexivity. Qed.

(** A codec that wraps an array is never suitable. *)
Lemma array_not_suitable (codec : Codec) :
  truthy (arrayOfCodec codec) = true ->
  isSuitableForFiltering pg codec = false.
Proof.
  intros Harr. rewrite isSuitableForFiltering_unfold, Harr. simpl.
  rewrite !andb_false_r. reflexivity.
Qed.

(** No digest is ever made for an array codec, whatever the options. *)
Lemma digest_not_array (codec : Codec) (digest : Digest) :
  connectionFilterOperatorsDigest pg build codec = Some digest ->
  arrayOfCodec codec = None.
Proof.
  unfold connectionFilterOperatorsDigest.
  destruct (arrayOfCodec codec) eqn:Harr; [|reflexivity].
  rewrite array_not_suitable by (rewrite Harr; reflexivity).
  discriminate.
Qed.

End ClassifierFacts.

(** C1. On an array codec (an array of ranges among them) the conditional
    chain picks [Array] and not [Range], but the digest never gets there:
    [isSuitableForFiltering] has already turned the codec down, so the
    classifier answers "not filterable". *)
Theorem array_of_range_gets_no_digest (pg : DataplanPg) (build : Build)
    (codec range : Codec) :
  arrayOfCodec codec = Some range ->
  truthy (rangeOfCodec codec) = true \/ truthy (rangeOfCodec range) = true ->
  pgConnectionFilterOperatorsCategory pg codec = Array
  /\ pgConnectionFilterOperatorsCategory pg codec <> Range
  /\ connectionFilterOperatorsDigest pg build codec = None.
Proof.
  intros Harr _.
  assert (Hcat : pgConnectionFilterOperatorsCategory pg codec = Array).
  { rewrite category_first_match, Harr. reflexivity. }
  split; [exact Hcat | split].
  - rewrite Hcat. discriminate.
  - destruct (connectionFilterOperatorsDigest pg build codec) eqn:Hd;
      [|reflexivity].
    apply digest_not_array in Hd. congruence.
Qed.

Lemma array_of_range_gets_no_digest_witness :
  arrayOfCodec Sample.int4rangeArray = Some Sample.int4range
  /\ connectionFilterArrays (options Sample.build) = true
  /\ pgConnectionFilterOperatorsCategory Sample.pg Sample.int4rangeArray = Array
  /\ connectionFilterOperatorsDigest Sample.pg Sample.build
       Sample.int4rangeArray = None.
Proof.
  split; [reflexivity | split; [reflexivity |]].
  pose proof (array_of_range_gets_no_digest Sample.pg Sample.build
                Sample.int4rangeArray Sample.int4range eq_refl
                (or_intror eq_refl)) as (Hcat & _ & Hd).
  split; assumption.
Defined.

(** ** The registry *)

Lemma Group_get_push (g : Group.t) (c : Codec) (key : string) :
  Group.get (Group.push g c) key = Group.get g key.
Proof. reflexivity. Qed.

Lemma Group_get_pushes (cs : list Codec) (g : Group.t) (key : string) :
  Group.get (fold_left Group.push cs g) key = Group.get g key.
Proof.
  revert g. induction cs as [|c cs IH]; intros g; simpl; [reflexivity|].
  rewrite IH. apply Group_get_push.
Qed.

Lemma pgCodecs_pushes (cs : list Codec) (g : Group.t) :
  Group.pgCodecs (fold_left Group.push cs g) = (Group.pgCodecs g ++ cs)%list.
Proof.
  revert g. induction cs as [|c cs IH]; intros g; simpl.
  - rewrite app_nil_r. reflexivity.
  - rewrite IH. simpl. rewrite <- app_assoc. reflexivity.
Qed.

Lemma domainBase_pushes (cs : list Codec) (g : Group.t) :
  Group.domainBaseTypeName (fold_left Group.push cs g)
  = Group.domainBaseTypeName g.
Proof.
  revert g. induction cs as [|c cs IH]; intros g; simpl; [reflexivity|].
  rewrite IH. reflexivity.
Qed.

Lemma agrees_pushes (cs : list Codec) (g : Group.t) (d : Digest) :
  agrees (fold_left Group.push cs g) d <-> agrees g d.
Proof.
  revert g. induction cs as [|c cs IH]; intros g; simpl; [reflexivity|].
  rewrite IH. unfold agrees. reflexivity.
Qed.

Lemma js_of_name_inj (a b : option string) :
  js_of_name a = js_of_name b -> a = b.
Proof. destruct a, b; simpl; congruence. Qed.

Lemma firstMismatch_None (g : Group.t) (d : Digest) :
  firstMismatch g d = None <-> agrees g d.
Proof.
  unfold firstMismatch, agrees, checkedKeys. cbn.
  split.
  - intros H.
    repeat match type of H with
           | (if bool_decide ?P then _ else _) = _ =>
             destruct (bool_decide_reflect P) as [|?]; [discriminate|]
           end.
    repeat match goal with
           | Hx : ~ (_ <> _) |- _ => apply dec_stable in Hx
           end.
    repeat match goal with
           | Hx : JsBoolean _ = JsBoolean _ |- _ => injection Hx as Hx
           | Hx : JsString _ = JsString _ |- _ => injection Hx as Hx
           | Hx : js_of_name _ = js_of_name _ |- _ => apply js_of_name_inj in Hx
           end.
    auto.
  - intros (-> & -> & -> & ->).
    rewrite !bool_decide_eq_false_2 by (intros Hne; apply Hne; reflexivity).
    reflexivity.
Qed.


(** The consistency loop throws for the first mismatching key and passes
    when there is none. *)
Lemma checkKeys_spec (g : Group.t) (c : Codec) (d : Digest) :
  checkKeys checkedKeys g c d =
  match firstMismatch g d with
  | Some key => inl (new_Error (mismatchMessage key g c d))
  | None => inr tt
  end.
Proof.
  unfold firstMismatch. induction checkedKeys as [|key keys IH]; simpl.
  - reflexivity.
  - destruct (bool_decide _); [reflexivity | exact IH].
Qed.

Section RegistryFacts.

Variable pg : DataplanPg.
Variable build : Build.

Local Abbreviation digestOf := (connectionFilterOperatorsDigest pg build).

(** One turn of the loop, case by case. *)
Lemma registerCodec_spec (m : gmap string Group.t) (c : Codec) :
  registerCodec pg build m c =
  match digestOf c with
  | None => inr m
  | Some d =>
    match m !! operatorsTypeName d with
    | None =>
      if inheritedFromObjectPrototype (operatorsTypeName d)
      then inl (undefinedMemberError "map")
      else inr (<[operatorsTypeName d := newGroup c d]> m)
    | Some g =>
      match firstMismatch g d with
      | Some key => inl (new_Error (mismatchMessage key g c d))
      | None => inr (<[operatorsTypeName d := Group.push g c]> m)
      end
    end
  end.
Proof.
  unfold registerCodec. destruct (digestOf c) as [d|]; [|reflexivity].
  destruct (m !! operatorsTypeName d) as [g|]; [|reflexivity].
  rewrite checkKeys_spec. destruct (firstMismatch g d); reflexivity.
Qed.

Lemma hasOperatorsTypeName_true (k : string) (c : Codec) :
  hasOperatorsTypeName pg build k c = true <->
  exists d, digestOf c = Some d /\ operatorsTypeName d = k.
Proof.
  unfold hasOperatorsTypeName. destruct (digestOf c) as [d|].
  - rewrite String.eqb_eq. split; [eauto|]. intros (d' & [= <-] & H). exact H.
  - split; [discriminate|]. intros (d' & [=] & _).
Qed.

(** What one successful turn does to the entry under [k]. *)
Lemma registerCodec_lookup (m m' : gmap string Group.t) (c : Codec)
    (k : string) :
  registerCodec pg build m c = inr m' ->
  m' !! k =
  if hasOperatorsTypeName pg build k c then
    match m !! k with
    | Some g => Some (Group.push g c)
    | None => newGroup c <$> digestOf c
    end
  else m !! k.
Proof.
  rewrite registerCodec_spec. unfold hasOperatorsTypeName.
  destruct (digestOf c) as [d|]; [|intros [= <-]; reflexivity].
  destruct (String.eqb_spec (operatorsTypeName d) k) as [<-|Hne].
  - destruct (m !! operatorsTypeName d) as [g|] eqn:Hg.
    + destruct (firstMismatch g d); [discriminate|]. intros [= <-].
      apply lookup_insert_eq.
    + destruct (inheritedFromObjectPrototype _); [discriminate|].
      intros [= <-]. apply lookup_insert_eq.
  - destruct (m !! operatorsTypeName d) as [g|] eqn:Hg.
    + destruct (firstMismatch g d); [discriminate|]. intros [= <-].
      apply lookup_insert_ne. exact Hne.
    + destruct (inheritedFromObjectPrototype _); [discriminate|].
      intros [= <-]. apply lookup_insert_ne. exact Hne.
Qed.

(** The entry under [k] after the whole loop: the group that was there
    with the later members pushed, or the group of the first member with
    the others pushed. *)
Lemma registerCodecs_lookup (l : list Codec) :
  forall (m0 m : gmap string Group.t) (k : string),
    registerCodecs pg build m0 l = inr m ->
    m !! k =
    match m0 !! k with
    | Some g => Some (fold_left Group.push (members pg build k l) g)
    | None =>
      match members pg build k l with
      | [] => None
      | c :: cs =>
        (fun d => fold_left Group.push cs (newGroup c d)) <$> digestOf c
      end
    end.
Proof.
  induction l as [|c l IH]; intros m0 m k; simpl.
  - intros [= <-]. destruct (m0 !! k); reflexivity.
  - destruct (registerCodec pg build m0 c) as [e|m1] eqn:Hstep;
      [discriminate|].
    intros Hrest. rewrite (IH _ _ k Hrest).
    rewrite (registerCodec_lookup _ _ _ k Hstep).
    destruct (hasOperatorsTypeName pg build k c) eqn:Hk.
    + destruct (m0 !! k) as [g|]; [reflexivity|].
      apply hasOperatorsTypeName_true in Hk as (d & Hd & _).
      rewrite Hd. reflexivity.
    + reflexivity.
Qed.

(** Every error of the loop comes from one codec of the catalogue: either
    its digest falls under the name of a member of [Object.prototype] that
    no group is stored under, or it differs from the group it falls in. *)
Lemma registerCodecs_error (l : list Codec) :
  forall (m0 : gmap string Group.t) (e : JsError),
    registerCodecs pg build m0 l = inl e ->
    exists (l1 l2 : list Codec) (c : Codec) (d : Digest)
           (m : gmap string Group.t),
      l = (l1 ++ c :: l2)%list
      /\ registerCodecs pg build m0 l1 = inr m
      /\ digestOf c = Some d
      /\ ((m !! operatorsTypeName d = None
           /\ inheritedFromObjectPrototype (operatorsTypeName d) = true
           /\ e = undefinedMemberError "map")
          \/ exists (g : Group.t) (key : string),
               m !! operatorsTypeName d = Some g
               /\ firstMismatch g d = Some key
               /\ e = new_Error (mismatchMessage key g c d)).
Proof.
  induction l as [|c l IH]; intros m0 e; simpl; [discriminate|].
  destruct (registerCodec pg build m0 c) as [e'|m1] eqn:Hstep.
  - intros [= <-]. rewrite registerCodec_spec in Hstep.
    destruct (digestOf c) as [d|] eqn:Hd; [|discriminate].
    exists [], l, c, d, m0.
    split; [reflexivity|]. split; [reflexivity|]. split; [exact Hd|].
    destruct (m0 !! operatorsTypeName d) as [g|] eqn:Hg.
    + destruct (firstMismatch g d) as [key|] eqn:Hkey; [|discriminate].
      injection Hstep as <-. right. exists g, key. auto.
    + destruct (inheritedFromObjectPrototype (operatorsTypeName d)) eqn:Hinh;
        [|discriminate].
      injection Hstep as <-. left. auto.
  - intros Hrest.
    destruct (IH _ _ Hrest) as (l1 & l2 & c' & d & m & -> & Hl1 & Hd & Hcase).
    exists (c :: l1), l2, c', d, m. simpl. rewrite Hstep.
    repeat split; auto.
Qed.

(** When the loop succeeds, every codec that has a digest sits in the
    group of its [operatorsTypeName] and agrees with it. *)
Lemma registerCodecs_member (l : list Codec) :
  forall (m0 m : gmap string Group.t) (c : Codec) (d : Digest),
    registerCodecs pg build m0 l = inr m ->
    In c l -> digestOf c = Some d ->
    exists g, m !! operatorsTypeName d = Some g
              /\ In c (Group.pgCodecs g) /\ agrees g d.
Proof.
  induction l as [|c0 l IH]; intros m0 m c d; simpl; [tauto|].
  destruct (registerCodec pg build m0 c0) as [e|m1] eqn:Hstep;
    [discriminate|].
  intros Hrest [->|Hin] Hd; [|eapply IH; eauto].
  pose proof (registerCodecs_lookup _ _ _ (operatorsTypeName d) Hrest) as Hm.
  assert (exists g1, m1 !! operatorsTypeName d = Some g1
                     /\ In c (Group.pgCodecs g1) /\ agrees g1 d)
    as (g1 & Hg1 & Hin1 & Hag1).
  { rewrite registerCodec_spec, Hd in Hstep.
    destruct (m0 !! operatorsTypeName d) as [g|] eqn:Hg.
    - destruct (firstMismatch g d) eqn:Hkey; [discriminate|].
      injection Hstep as <-. exists (Group.push g c).
      rewrite lookup_insert_eq. split; [reflexivity|]. split.
      + simpl. apply in_or_app. right. left. reflexivity.
      + apply firstMismatch_None in Hkey. exact Hkey.
    - destruct (inheritedFromObjectPrototype _) eqn:Hinh; [discriminate|].
      injection Hstep as <-. exists (newGroup c d).
      rewrite lookup_insert_eq. split; [reflexivity|]. split.
      + left. reflexivity.
      + unfold agrees. simpl. auto. }
  rewrite Hg1 in Hm. eexists. split; [exact Hm|]. split.
  - rewrite pgCodecs_pushes. apply in_or_app. left. exact Hin1.
  - apply agrees_pushes. exact Hag1.
Qed.

(** From the empty registry, a group holds exactly the members of its
    name, and its attributes are those of the first one's digest. *)
Lemma codecsByFilterTypeName_lookup (l : list Codec)
    (m : gmap string Group.t) (k : string) (g : Group.t) :
  codecsByFilterTypeName pg build l = inr m ->
  m !! k = Some g ->
  exists (c : Codec) (cs : list Codec) (d : Digest),
    members pg build k l = c :: cs
    /\ digestOf c = Some d
    /\ operatorsTypeName d = k
    /\ g = fold_left Group.push cs (newGroup c d).
Proof.
  unfold codecsByFilterTypeName. intros Hrun Hg.
  rewrite (registerCodecs_lookup _ _ _ k Hrun), lookup_empty in Hg.
  destruct (members pg build k l) as [|c cs] eqn:Hmem; [discriminate|].
  assert (Hc : hasOperatorsTypeName pg build k c = true).
  { assert (Hin : In c (members pg build k l)) by (rewrite Hmem; left; auto).
    unfold members in Hin. apply filter_In in Hin. tauto. }
  apply hasOperatorsTypeName_true in Hc as (d & Hd & Hk).
  rewrite Hd in Hg. injection Hg as <-. exists c, cs, d. repeat split; auto.
Qed.

(** The names groups are stored under are never inherited ones. *)
Lemma registerCodecs_keys (l : list Codec) :
  forall (m0 m : gmap string Group.t),
    (forall k, is_Some (m0 !! k) -> inheritedFromObjectPrototype k = false) ->
    registerCodecs pg build m0 l = inr m ->
    forall k, is_Some (m !! k) -> inheritedFromObjectPrototype k = false.
Proof.
  induction l as [|c l IH]; intros m0 m Hm0; simpl.
  - intros [= <-]. exact Hm0.
  - destruct (registerCodec pg build m0 c) as [e|m1] eqn:Hstep;
      [discriminate|].
    apply IH. intros k Hk. rewrite registerCodec_spec in Hstep.
    destruct (digestOf c) as [d|]; [|injection Hstep as <-; auto].
    destruct (m0 !! operatorsTypeName d) as [g|] eqn:Hg.
    + destruct (firstMismatch g d); [discriminate|]. injection Hstep as <-.
      destruct (decide (operatorsTypeName d = k)) as [<-|Hne].
      * apply Hm0. rewrite Hg. eauto.
      * rewrite lookup_insert_ne in Hk by exact Hne. auto.
    + destruct (inheritedFromObjectPrototype (operatorsTypeName d)) eqn:Hinh;
        [discriminate|].
      injection Hstep as <-.
      destruct (decide (operatorsTypeName d = k)) as [<-|Hne];
        [exact Hinh|].
      rewrite lookup_insert_ne in Hk by exact Hne. auto.
Qed.

(** A run that succeeds met no inherited name. *)
Lemma success_noInheritedName (l : list Codec) (m : gmap string Group.t) :
  codecsByFilterTypeName pg build l = inr m -> noInheritedName pg build l.
Proof.
  intros Hrun c d Hin Hd.
  destruct (registerCodecs_member _ _ _ c d Hrun Hin Hd) as (g & Hg & _).
  apply (registerCodecs_keys l ∅ m); [|exact Hrun | rewrite Hg; eauto].
  intros k [g0 Hk]. rewrite lookup_empty in Hk. discriminate Hk.
Qed.

End RegistryFacts.


Lemma agrees_newGroup (c : Codec) (d1 d2 : Digest) :
  agrees (newGroup c d1) d2 <-> sameChecked d1 d2.
Proof.
  unfold agrees, sameChecked. simpl.
  split; intros (H1 & H2 & H3 & H4); repeat split; congruence.
Qed.

(** The registry fed with two codecs of one [operatorsTypeName], and
    nothing else. *)
Lemma operator_group_pair (pg : DataplanPg) (build : Build)
    (c1 c2 : Codec) (d1 d2 : Digest) :
  connectionFilterOperatorsDigest pg build c1 = Some d1 ->
  connectionFilterOperatorsDigest pg build c2 = Some d2 ->
  operatorsTypeName d1 = operatorsTypeName d2 ->
  inheritedFromObjectPrototype (operatorsTypeName d1) = false ->
  codecsByFilterTypeName pg build [c1; c2] =
    match firstMismatch (newGroup c1 d1) d2 with
    | Some key => inl (new_Error (mismatchMessage key (newGroup c1 d1) c2 d2))
    | None => inr {[ operatorsTypeName d1 := Group.push (newGroup c1 d1) c2 ]}
    end
  /\ (sameChecked d1 d2 ->
      codecsByFilterTypeName pg build [c1; c2]
      = inr {[ operatorsTypeName d1 := Group.push (newGroup c1 d1) c2 ]}).
Proof.
  intros Hd1 Hd2 Hname Hown.
  assert (Hrun : codecsByFilterTypeName pg build [c1; c2] =
                 match firstMismatch (newGroup c1 d1) d2 with
                 | Some key =>
                   inl (new_Error (mismatchMessage key (newGroup c1 d1) c2 d2))
                 | None =>
                   inr {[ operatorsTypeName d1
                          := Group.push (newGroup c1 d1) c2 ]}
                 end).
  { unfold codecsByFilterTypeName. simpl.
    rewrite registerCodec_spec, Hd1, lookup_empty, Hown.
    rewrite registerCodec_spec, Hd2, <- Hname, lookup_insert_eq.
    destruct (firstMismatch (newGroup c1 d1) d2); [reflexivity|].
    rewrite insert_insert_eq. reflexivity. }
  split; [exact Hrun|].
  intros Hsame. apply (proj2 (agrees_newGroup c1 d1 d2)) in Hsame.
  apply (proj2 (firstMismatch_None _ _)) in Hsame.
  rewrite Hrun, Hsame. reflexivity.
Qed.





(** C10. A group keeps what the digest of its first member gave it: the
    first codec of the catalogue whose digest has that [operatorsTypeName].
    Its checked attributes and its [domainBaseTypeName], and with them the
    tag of the operator type that is registered, are that digest's; later
    members only join the member list.  So catalogues that list the same two
    codecs in opposite orders register different domain-base tags when the
    two digests differ there (the operator type name being one the object
    does not inherit from [Object.prototype]). *)
Theorem group_keeps_first_digest (pg : DataplanPg) (build : Build) :
  (forall (l : list Codec) (m : gmap string Group.t) (k : string)
          (g : Group.t),
      codecsByFilterTypeName pg build l = inr m ->
      m !! k = Some g ->
      exists (first : Codec) (later : list Codec) (d : Digest),
        members pg build k l = first :: later
        /\ connectionFilterOperatorsDigest pg build first = Some d
        /\ Group.pgCodecs g = first :: later
        /\ Group.domainBaseTypeName g = domainBaseTypeName d
        /\ Group.isList g = isList d
        /\ Group.relatedTypeName g = relatedTypeName d
        /\ Group.inputTypeName g = inputTypeName d
        /\ Group.rangeElementInputTypeName g = rangeElementInputTypeName d
        /\ reg_scope (operatorsRegistration g)
           = ScopeOperators (first :: later) (inputTypeName d)
               (rangeElementInputTypeName d) (domainBaseTypeName d))
  /\ (forall (c1 c2 : Codec) (d1 d2 : Digest),
         connectionFilterOperatorsDigest pg build c1 = Some d1 ->
         connectionFilterOperatorsDigest pg build c2 = Some d2 ->
         operatorsTypeName d1 = operatorsTypeName d2 ->
         inheritedFromObjectPrototype (operatorsTypeName d1) = false ->
         sameChecked d1 d2 ->
         domainBaseTypeName d1 <> domainBaseTypeName d2 ->
         exists g12 g21,
           codecsByFilterTypeName pg build [c1; c2]
           = inr {[ operatorsTypeName d1 := g12 ]}
           /\ codecsByFilterTypeName pg build [c2; c1]
              = inr {[ operatorsTypeName d1 := g21 ]}
           /\ Group.domainBaseTypeName g12 = domainBaseTypeName d1
           /\ Group.domainBaseTypeName g21 = domainBaseTypeName d2
           /\ Group.domainBaseTypeName g12 <> Group.domainBaseTypeName g21).
Proof.
  split.
  - intros l m k g Hrun Hg.
    destruct (codecsByFilterTypeName_lookup pg build l m k g Hrun Hg)
      as (c & cs & d & Hmem & Hd & _ & ->).
    exists c, cs, d.
    assert (Hcodecs :
              Group.pgCodecs (fold_left Group.push cs (newGroup c d)) = c :: cs)
      by (rewrite pgCodecs_pushes; reflexivity).
    assert (Hget : forall key,
               Group.get (fold_left Group.push cs (newGroup c d)) key
               = Group.get (newGroup c d) key)
      by (intros key; apply Group_get_pushes).
    pose proof (Hget "isList") as H1.
    pose proof (Hget "relatedTypeName") as H2.
    pose proof (Hget "inputTypeName") as H3.
    pose proof (Hget "rangeElementInputTypeName") as H4.
    pose proof (domainBase_pushes cs (newGroup c d)) as H5.
    cbn in H1, H2, H3, H4, H5.
    injection H1 as H1. injection H2 as H2. injection H3 as H3.
    apply js_of_name_inj in H4.
    repeat split; auto.
    unfold operatorsRegistration. simpl reg_scope.
    rewrite Hcodecs, H3, H4, H5. reflexivity.
  - intros c1 c2 d1 d2 Hd1 Hd2 Hname Hown Hsame Hdom.
    assert (Hsame' : sameChecked d2 d1).
    { unfold sameChecked in *. destruct Hsame as (? & ? & ? & ?).
      repeat split; congruence. }
    destruct (operator_group_pair pg build c1 c2 d1 d2 Hd1 Hd2 Hname Hown)
      as (_ & H12).
    assert (Hown' : inheritedFromObjectPrototype (operatorsTypeName d2)
                    = false) by (rewrite <- Hname; exact Hown).
    destruct (operator_group_pair pg build c2 c1 d2 d1 Hd2 Hd1
                (eq_sym Hname) Hown') as (_ & H21).
    exists (Group.push (newGroup c1 d1) c2), (Group.push (newGroup c2 d2) c1).
    rewrite (H12 Hsame), (H21 Hsame'), Hname. simpl.
    repeat split; auto.
Qed.

(** ** The apply protocol *)

Section ApplyFacts.

Variable build : Build.

Local Abbreviation allowEmpty :=
  (connectionFilterAllowEmptyObjectInput (options build)).
Local Abbreviation allowNull :=
  (connectionFilterAllowNullInput (options build)).

(** The three ways [applyPlan] ends. *)
Lemma applyPlan_spec (colSpec : ColSpec) (fa : FieldArgs) (st : PlanState) :
  applyPlan build colSpec fa st =
  if negb allowEmpty && bool_decide (evalIsEmpty (getRaw fa) = Some true)
  then (inl EmptyFilterObject, st)
  else if negb allowNull && evalIs (getRaw fa) JsNull
  then (inl NullFilterLiteral, logged build st)
  else apply fa (tagged colSpec (logged build st)).
Proof.
  unfold applyPlan, logged, tagged.
  destruct allowEmpty, (evalIsEmpty (getRaw fa)) as [[|]|],
    allowNull, (evalIs (getRaw fa) JsNull);
    unfold mbind, Plan_bind, mret, Plan_ret, console_log, throw, wherePlan,
      set_pgFilterColumn;
    cbn; rewrite <- ?app_assoc; reflexivity.
Qed.

Lemma applyPlan_empty (colSpec : ColSpec) (fa : FieldArgs) (st : PlanState) :
  emptyRejected build (getRaw fa) ->
  applyPlan build colSpec fa st = (inl EmptyFilterObject, st).
Proof.
  intros [Hflag Hraw]. rewrite applyPlan_spec, Hflag, Hraw. reflexivity.
Qed.

Lemma not_emptyRejected (raw : RawStep) :
  ~ emptyRejected build raw ->
  negb allowEmpty && bool_decide (evalIsEmpty raw = Some true) = false.
Proof.
  unfold emptyRejected. intros Hn.
  destruct allowEmpty; [reflexivity|]. simpl.
  apply bool_decide_eq_false_2. intros H. apply Hn. auto.
Qed.

Lemma not_nullRejected (raw : RawStep) :
  ~ nullRejected build raw ->
  negb allowNull && evalIs raw JsNull = false.
Proof.
  unfold nullRejected. intros Hn.
  destruct allowNull; [reflexivity|]. simpl.
  destruct (evalIs raw JsNull); [|reflexivity]. exfalso. apply Hn. auto.
Qed.

Lemma applyPlan_null (colSpec : ColSpec) (fa : FieldArgs) (st : PlanState) :
  ~ emptyRejected build (getRaw fa) ->
  nullRejected build (getRaw fa) ->
  applyPlan build colSpec fa st = (inl NullFilterLiteral, logged build st).
Proof.
  intros Hne [Hflag Hraw].
  rewrite applyPlan_spec, (not_emptyRejected _ Hne), Hflag, Hraw.
  reflexivity.
Qed.

Lemma applyPlan_delegates (colSpec : ColSpec) (fa : FieldArgs)
    (st : PlanState) :
  ~ emptyRejected build (getRaw fa) ->
  ~ nullRejected build (getRaw fa) ->
  applyPlan build colSpec fa st
  = apply fa (tagged colSpec (logged build st)).
Proof.
  intros Hne Hnn.
  rewrite applyPlan_spec, (not_emptyRejected _ Hne), (not_nullRejected _ Hnn).
  reflexivity.
Qed.

End ApplyFacts.

Lemma classic_empty (build : Build) (raw : RawStep) :
  emptyRejected build raw \/ ~ emptyRejected build raw.
Proof.
  unfold emptyRejected.
  destruct (connectionFilterAllowEmptyObjectInput (options build)),
    (evalIsEmpty raw) as [[|]|];
    first [left; split; reflexivity | right; intros [? ?]; discriminate].
Qed.

(** C3. The two guards of [applyPlan].  An argument reported empty, with
    empty objects forbidden, fails with the empty-object error.  Otherwise a
    [null] literal, with [null] literals forbidden, fails with the
    null-literal error.  With [connectionFilterAllowEmptyObjectInput] set the
    empty argument, and with [connectionFilterAllowNullInput] set the [null]
    literal, goes on to the delegation, provided the other guard does not
    stop it; nothing is thrown by the protocol itself. *)
Theorem applyPlan_guards (build : Build) (colSpec : ColSpec)
    (fa : FieldArgs) (st : PlanState) :
  (connectionFilterAllowEmptyObjectInput (options build) = false ->
   evalIsEmpty (getRaw fa) = Some true ->
   fst (applyPlan build colSpec fa st) = inl EmptyFilterObject)
  /\ (~ emptyRejected build (getRaw fa) ->
      connectionFilterAllowNullInput (options build) = false ->
      evalIs (getRaw fa) JsNull = true ->
      fst (applyPlan build colSpec fa st) = inl NullFilterLiteral)
  /\ (connectionFilterAllowEmptyObjectInput (options build) = true ->
      evalIsEmpty (getRaw fa) = Some true ->
      ~ nullRejected build (getRaw fa) ->
      applyPlan build colSpec fa st
      = apply fa (tagged colSpec (logged build st)))
  /\ (connectionFilterAllowNullInput (options build) = true ->
      evalIs (getRaw fa) JsNull = true ->
      ~ emptyRejected build (getRaw fa) ->
      applyPlan build colSpec fa st
      = apply fa (tagged colSpec (logged build st))).
Proof.
  repeat split.
  - intros Hflag Hraw. rewrite applyPlan_empty; [reflexivity | split; auto].
  - intros Hne Hflag Hraw. rewrite applyPlan_null; [reflexivity | auto | split; auto].
  - intros Hflag _ Hnn. apply applyPlan_delegates; [|exact Hnn].
    intros [H _]. congruence.
  - intros Hflag _ Hne. apply applyPlan_delegates; [exact Hne|].
    intros [H _]. congruence.
Qed.

Lemma applyPlan_guards_witness :
  fst (applyPlan Sample.build Sample.nameCol
         (Sample.argsOf Sample.emptyObject) Sample.st0)
  = inl EmptyFilterObject
  /\ fst (applyPlan Sample.build Sample.nameCol
            (Sample.argsOf Sample.nullLiteral) Sample.st0)
     = inl NullFilterLiteral
  /\ fst (applyPlan (Sample.buildWith Sample.lenient []) Sample.nameCol
            (Sample.argsOf Sample.emptyObject) Sample.st0) = inr tt
  /\ fst (applyPlan (Sample.buildWith Sample.lenient []) Sample.nameCol
            (Sample.argsOf Sample.nullLiteral) Sample.st0) = inr tt.
Proof.
  split; [|split; [|split]].
  - apply (applyPlan_guards Sample.build Sample.nameCol
             (Sample.argsOf Sample.emptyObject) Sample.st0); reflexivity.
  - apply (applyPlan_guards Sample.build Sample.nameCol
             (Sample.argsOf Sample.nullLiteral) Sample.st0);
      [intros [_ H]; discriminate H | reflexivity | reflexivity].
  - destruct (applyPlan_guards (Sample.buildWith Sample.lenient [])
                Sample.nameCol (Sample.argsOf Sample.emptyObject) Sample.st0)
      as (_ & _ & H & _).
    rewrite H; [reflexivity | reflexivity | reflexivity |].
    intros [H0 _]. discriminate H0.
  - destruct (applyPlan_guards (Sample.buildWith Sample.lenient [])
                Sample.nameCol (Sample.argsOf Sample.nullLiteral) Sample.st0)
      as (_ & _ & _ & H).
    rewrite H; [reflexivity | reflexivity | reflexivity |].
    intros [H0 _]. discriminate H0.
Defined.

(** C4. The error thrown by either guard is a plain [Error] with its
    message: the object given to [Object.assign] is empty, so the error has
    no own property and carries no marker of any name. *)
Theorem validation_errors_carry_no_marker (build : Build) (colSpec : ColSpec)
    (fa : FieldArgs) (st : PlanState) :
  emptyRejected build (getRaw fa) \/ nullRejected build (getRaw fa) ->
  exists e,
    fst (applyPlan build colSpec fa st) = inl e
    /\ (e = new_Error emptyObjectMessage \/ e = new_Error nullLiteralMessage)
    /\ props e = []
    /\ forall marker, hasMarker marker e = false.
Proof.
  intros H.
  destruct (classic_empty build (getRaw fa)) as [He|Hne].
  - exists EmptyFilterObject. rewrite applyPlan_empty by exact He.
    repeat split; auto.
  - destruct H as [He|Hn]; [contradiction|].
    exists NullFilterLiteral. rewrite applyPlan_null by assumption.
    repeat split; auto.
Qed.

Lemma validation_errors_carry_no_marker_witness :
  (exists e,
      fst (applyPlan Sample.build Sample.nameCol
             (Sample.argsOf Sample.emptyObject) Sample.st0) = inl e
      /\ props e = [])
  /\ (exists e,
         fst (applyPlan Sample.build Sample.nameCol
                (Sample.argsOf Sample.nullLiteral) Sample.st0) = inl e
         /\ props e = []).
Proof.
  split.
  - destruct (validation_errors_carry_no_marker Sample.build Sample.nameCol
                (Sample.argsOf Sample.emptyObject) Sample.st0)
      as (e & He & _ & Hp & _).
    + left. split; reflexivity.
    + exists e. split; assumption.
  - destruct (validation_errors_carry_no_marker Sample.build Sample.nameCol
                (Sample.argsOf Sample.nullLiteral) Sample.st0)
      as (e & He & _ & Hp & _).
    + right. split; reflexivity.
    + exists e. split; assumption.
Defined.

(** C5. When a guard fails, the where-step is what it was: its slot is not
    assigned and [fieldArgs.apply] is not called, so the outcome is the same
    whatever that [apply] would do. *)
Theorem validation_failure_leaves_target (build : Build) (colSpec : ColSpec)
    (fa : FieldArgs) (st : PlanState) :
  emptyRejected build (getRaw fa) \/ nullRejected build (getRaw fa) ->
  where_ (snd (applyPlan build colSpec fa st)) = where_ st
  /\ (fst (applyPlan build colSpec fa st) = inl EmptyFilterObject
      \/ fst (applyPlan build colSpec fa st) = inl NullFilterLiteral)
  /\ forall other : Plan unit,
       applyPlan build colSpec {| getRaw := getRaw fa; apply := other |} st
       = applyPlan build colSpec fa st.
Proof.
  intros H.
  destruct (classic_empty build (getRaw fa)) as [He|Hne].
  - rewrite applyPlan_empty by exact He. repeat split; auto.
    intros other. apply applyPlan_empty. exact He.
  - destruct H as [He|Hn]; [contradiction|].
    rewrite applyPlan_null by assumption. repeat split; auto.
    intros other. apply applyPlan_null; assumption.
Qed.

Lemma validation_failure_leaves_target_witness :
  where_ (snd (applyPlan Sample.build Sample.nameCol
                 (Sample.argsOf Sample.emptyObject) Sample.st0))
  = where_ Sample.st0
  /\ where_ (snd (applyPlan Sample.build Sample.nameCol
                    (Sample.argsOf Sample.nullLiteral) Sample.st0))
     = where_ Sample.st0.
Proof.
  split.
  - apply (validation_failure_leaves_target Sample.build Sample.nameCol
             (Sample.argsOf Sample.emptyObject) Sample.st0).
    left. split; reflexivity.
  - apply (validation_failure_leaves_target Sample.build Sample.nameCol
             (Sample.argsOf Sample.nullLiteral) Sample.st0).
    right. split; reflexivity.
Defined.

(** C9. A step without the [evalIsEmpty] member is never asked whether it is
    empty: whatever [connectionFilterAllowEmptyObjectInput] says, the
    protocol behaves as if empty objects were allowed, and the only error it
    can throw itself is the one for [null] literals. *)
Theorem no_evalIsEmpty_skips_empty_check (build : Build) (colSpec : ColSpec)
    (fa : FieldArgs) (st : PlanState) :
  evalIsEmpty (getRaw fa) = None ->
  applyPlan build colSpec fa st
  = applyPlan (withAllowEmptyObjectInput true build) colSpec fa st
  /\ applyPlan build colSpec fa st
     = (if negb (connectionFilterAllowNullInput (options build))
           && evalIs (getRaw fa) JsNull
        then (inl NullFilterLiteral, logged build st)
        else apply fa (tagged colSpec (logged build st)))
  /\ (fst (applyPlan build colSpec fa st) = inl EmptyFilterObject ->
      fst (apply fa (tagged colSpec (logged build st)))
      = inl EmptyFilterObject).
Proof.
  intros Hraw.
  assert (Hrun : applyPlan build colSpec fa st
                 = (if negb (connectionFilterAllowNullInput (options build))
                       && evalIs (getRaw fa) JsNull
                    then (inl NullFilterLiteral, logged build st)
                    else apply fa (tagged colSpec (logged build st)))).
  { rewrite applyPlan_spec, Hraw.
    rewrite bool_decide_eq_false_2 by discriminate.
    rewrite andb_false_r. reflexivity. }
  split; [|split].
  - rewrite Hrun, applyPlan_spec. simpl. reflexivity.
  - exact Hrun.
  - rewrite Hrun.
    destruct (negb (connectionFilterAllowNullInput (options build))
              && evalIs (getRaw fa) JsNull); [|auto].
    simpl. intros [= H]. 
Qed.

Lemma no_evalIsEmpty_skips_empty_check_witness :
  evalIsEmpty Sample.leaf = None
  /\ connectionFilterAllowEmptyObjectInput (options Sample.build) = false
  /\ fst (applyPlan Sample.build Sample.nameCol
            (Sample.argsOf Sample.leaf) Sample.st0) = inr tt.
Proof.
  split; [reflexivity | split; [reflexivity|]].
  destruct (no_evalIsEmpty_skips_empty_check Sample.build Sample.nameCol
              (Sample.argsOf Sample.leaf) Sample.st0 eq_refl) as (_ & H & _).
  rewrite H. reflexivity.
Defined.

(** ** The column filter fields *)

Lemma columnFilterField_spec (pg : DataplanPg) (build : Build)
    (owner : Codec) (columnName : string) (column_ : PgTypeColumn)
    (fieldName : string) (spec : FieldSpec) :
  columnFilterField pg build owner (columnName, column_)
  = Some (fieldName, spec) ->
  fieldName = column (inflection build) owner columnName
  /\ fs_applyPlan spec
     = applyPlan build {| columnName := columnName; col := column_ |}
  /\ behavior_matches build
       (pgGetBehavior build
          [extensions (column_codec column_); col_extensions column_])
       "filter" "filter" = true
  /\ exists digest,
       connectionFilterOperatorsDigest pg build (column_codec column_)
       = Some digest
       /\ getTypeByName build (operatorsTypeName digest) = Some (fs_type spec).
Proof.
  unfold columnFilterField.
  destruct (behavior_matches build _ "filter" "filter"); [|discriminate].
  simpl.
  destruct (connectionFilterOperatorsDigest pg build (column_codec column_))
    as [digest|]; [|discriminate].
  destruct (getTypeByName build (operatorsTypeName digest)) as [ty|] eqn:Hty;
    [|discriminate].
  intros [= <- <-]. simpl. repeat split; eauto.
Qed.

(** C6. Every field the hook adds to the filter type of a codec belongs to
    one column of that codec.  When both guards pass, its [applyPlan] first
    puts that column (its name and its description, codec included) in the
    slot of the where-step, replacing whatever was there, and then calls
    [fieldArgs.apply] on the state so obtained: the delegate starts with the
    column already in the slot. *)
Theorem column_identity_set_before_delegation (pg : DataplanPg)
    (build : Build) (owner : Codec) (fieldName : string) (spec : FieldSpec) :
  In (fieldName, spec) (columnFilterFields pg build owner) ->
  exists (cols : list (string * PgTypeColumn)) (columnName : string)
         (column_ : PgTypeColumn),
    columns owner = Some cols
    /\ In (columnName, column_) cols
    /\ fieldName = column (inflection build) owner columnName
    /\ forall (fa : FieldArgs) (st : PlanState),
         ~ emptyRejected build (getRaw fa) ->
         ~ nullRejected build (getRaw fa) ->
         let colSpec := {| columnName := columnName; col := column_ |} in
         let before := tagged colSpec (logged build st) in
         fs_applyPlan spec fa st = apply fa before
         /\ pgFilterColumn (where_ before) = Some colSpec
         /\ conditions (where_ before) = conditions (where_ st).
Proof.
  unfold columnFilterFields.
  destruct (columns owner) as [cols|] eqn:Hcols; [|intros []].
  intros Hin. apply list_elem_of_In, list_elem_of_omap in Hin
    as ([columnName column_] & Hentry & Hfield).
  apply list_elem_of_In in Hentry.
  apply columnFilterField_spec in Hfield as (Hname & Hplan & _).
  exists cols, columnName, column_. repeat split; auto.
  rewrite Hplan. apply applyPlan_delegates; assumption.
Qed.

Lemma column_identity_set_before_delegation_witness :
  exists (spec : FieldSpec) (columnName : string) (column_ : PgTypeColumn),
    In ("name", spec) (columnFilterFields Sample.pg Sample.build Sample.person)
    /\ In (columnName, column_) (default [] (columns Sample.person))
    /\ "name" = column (inflection Sample.build) Sample.person columnName
    /\ fs_applyPlan spec (Sample.argsOf Sample.filled) Sample.st0
       = apply (Sample.argsOf Sample.filled)
           (tagged {| columnName := columnName; col := column_ |}
              (logged Sample.build Sample.st0)).
Proof.
  assert (Hin : In ("name",
                    {| fs_fieldName := "name";
                       isPgConnectionFilterField := true;
                       fs_description := "Filter by the object’s `name` field.";
                       fs_type := {| type_name := "StringFilter" |};
                       fs_applyPlan := applyPlan Sample.build Sample.nameCol |})
                   (columnFilterFields Sample.pg Sample.build Sample.person)).
  { right. left. reflexivity. }
  destruct (column_identity_set_before_delegation Sample.pg Sample.build
              Sample.person "name" _ Hin)
    as (cols & columnName & column_ & Hcols & Hentry & Hname & Hrun).
  injection Hcols as <-.
  eexists _, columnName, column_.
  split; [exact Hin|]. split; [exact Hentry|]. split; [exact Hname|].
  apply Hrun.
  - intros [_ H]. discriminate H.
  - intros [_ H]. discriminate H.
Defined.

(** Two table types with the same columns: the field of the [name] column
    is the same for both and leaves the same slot, so the slot does not
    tell which type owns the column. *)
Lemma column_identity_set_before_delegation_counterexample :
  Sample.person <> Cases.animal
  /\ (exists spec,
         In ("name", spec)
           (columnFilterFields Sample.pg Sample.build Sample.person)
         /\ In ("name", spec)
              (columnFilterFields Sample.pg Sample.build Cases.animal)
         /\ pgFilterColumn
              (where_ (snd (fs_applyPlan spec (Sample.argsOf Sample.filled)
                              Sample.st0)))
            = Some {| columnName := "name";
                      col := MkColumn Sample.text Sample.noExt |})
  /\ ~ exists owningType : ColSpec -> Codec,
        forall owner fieldName spec,
          In (fieldName, spec) (columnFilterFields Sample.pg Sample.build owner)
          -> owningType
               <$> pgFilterColumn
                     (where_ (snd (fs_applyPlan spec
                                     (Sample.argsOf Sample.filled)
                                     Sample.st0)))
             = Some owner.
Proof.
  split; [discriminate|]. split.
  - eexists. split; [right; left; reflexivity|].
    split; [right; left; reflexivity | reflexivity].
  - intros [owningType Hown].
    pose proof (Hown Sample.person "name" _ (or_intror (or_introl eq_refl)))
      as Hp.
    pose proof (Hown Cases.animal "name" _ (or_intror (or_introl eq_refl)))
      as Ha.
    cbn in Hp, Ha. rewrite Hp in Ha. discriminate Ha.
Qed.

(** ** The [filter] argument *)

(** C7. Default filterability of a listing field.  The default policy handed
    to the capability check is ["-filter"] exactly for a source that has
    [parameters] while [connectionFilterSetofFunctions] is off, and
    ["filter"] otherwise.  For a resolver that lets an explicit [filter] tag
    of the source win over the default, the check therefore passes exactly
    when the tag says so or, without a tag, when the source is a plain one or
    procedure filtering is switched on.  When the check fails the hook hands
    back [args] as they came, without an error; when it passes and the types
    are found, the [filter] argument is added. *)
Theorem default_filterability (build : Build)
    (extend_args :
       gmap string ArgSpec -> gmap string ArgSpec -> string ->
       JsError + gmap string ArgSpec)
    (explicitTag : string -> option bool) :
  (forall behavior,
      behavior_matches build behavior "filter" "filter"
      = default true (explicitTag behavior)
      /\ behavior_matches build behavior "filter" "-filter"
         = default false (explicitTag behavior)) ->
  forall (args : gmap string ArgSpec) (scope : ArgsScope) (source : Source),
    pgSource scope = Some source ->
    isPgFieldConnection scope || isPgFieldSimpleCollection scope = true ->
    (defaultBehavior build source = "-filter" <->
       parameters source <> None
       /\ connectionFilterSetofFunctions (options build) = false)
    /\ (defaultBehavior build source = "filter" <->
          parameters source = None
          \/ connectionFilterSetofFunctions (options build) = true)
    /\ filterMatches build source
       = match explicitTag (sourceBehavior build source) with
         | Some tag => tag
         | None =>
           negb (truthy (parameters source))
           || connectionFilterSetofFunctions (options build)
         end
    /\ (filterMatches build source = false ->
        GraphQLObjectType_fields_field_args build extend_args args scope
        = inr args)
    /\ (filterMatches build source = true ->
        forall nodeType FilterType,
          getGraphQLTypeByPgCodec build (src_codec source) Output
          = Some nodeType ->
          getTypeByName build
            (filterType (inflection build) (type_name nodeType))
          = Some FilterType ->
          GraphQLObjectType_fields_field_args build extend_args args scope
          = extend_args args {[ "filter" := filterArg scope FilterType ]}
              ("Adding connection filter arg to field '" ++ fieldName scope
               ++ "' of '" ++ Self_name scope ++ "'")).
Proof.
  intros Hlaw args scope source Hsource Hshape.
  split; [|split; [|split; [|split]]].
  - unfold defaultBehavior.
    destruct (parameters source), (connectionFilterSetofFunctions _); simpl;
      split; try discriminate; try (intros [? ?]; congruence); auto.
  - unfold defaultBehavior.
    destruct (parameters source), (connectionFilterSetofFunctions _); simpl;
      split; try discriminate; auto.
    intros [?|?]; discriminate.
  - unfold filterMatches, defaultBehavior.
    destruct (Hlaw (sourceBehavior build source)) as [Hplus Hminus].
    destruct (parameters source), (connectionFilterSetofFunctions _); simpl;
      rewrite ?Hplus, ?Hminus;
      destruct (explicitTag (sourceBehavior build source)); reflexivity.
  - intros Hno. unfold GraphQLObjectType_fields_field_args.
    rewrite Hshape, Hsource, Hno. reflexivity.
  - intros Hyes nodeType FilterType Hnode Hfilter.
    unfold GraphQLObjectType_fields_field_args.
    rewrite Hshape, Hsource, Hyes. simpl. rewrite Hnode, Hfilter. reflexivity.
Qed.

Lemma Sample_split_default (d behavior : string) :
  d = "filter" \/ d = "-filter" ->
  split (d ++ " " ++ behavior) " " = d :: split behavior " ".
Proof. intros [->| ->]; reflexivity. Qed.

Lemma Sample_tagStep_explicit (tags : list string) :
  forall (acc : bool) (o : option bool),
    fold_left Sample.tagStep tags (default acc o)
    = default acc (fold_left Sample.explicitStep tags o).
Proof.
  induction tags as [|t tags IH]; intros acc o; simpl; [reflexivity|].
  rewrite <- IH. f_equal. unfold Sample.tagStep, Sample.explicitStep.
  destruct (String.eqb t "filter" || String.eqb t "+filter"); [reflexivity|].
  destruct (String.eqb t "-filter"); reflexivity.
Qed.

(** The sample resolver lets the last explicit tag win over the default. *)
Lemma Sample_matches_law (behavior : string) :
  Sample.matches behavior "filter" "filter"
  = default true (Sample.explicitTag behavior)
  /\ Sample.matches behavior "filter" "-filter"
     = default false (Sample.explicitTag behavior).
Proof.
  unfold Sample.matches, Sample.explicitTag.
  rewrite !Sample_split_default by auto. simpl fold_left.
  split.
  - apply (Sample_tagStep_explicit _ true None).
  - apply (Sample_tagStep_explicit _ false None).
Qed.

Lemma default_filterability_witness :
  filterMatches Sample.build Sample.table = true
  /\ filterMatches Sample.build Sample.procOptIn = true
  /\ filterMatches (Sample.buildWith Sample.lenient []) Sample.proc = true
  /\ GraphQLObjectType_fields_field_args Sample.build Sample.extend ∅
       (Sample.listing Sample.proc) = inr ∅
  /\ GraphQLObjectType_fields_field_args Sample.build Sample.extend ∅
       (Sample.listing Sample.tableOptOut) = inr ∅.
Proof.
  pose proof (fun o l s =>
                default_filterability (Sample.buildWith o l) Sample.extend
                  Sample.explicitTag Sample_matches_law ∅ (Sample.listing s)
                  s eq_refl eq_refl)
    as H'.
  pose proof (H' Sample.opts [Sample.text; Sample.int4; Sample.email;
                              Sample.person]) as H.
  split; [|split; [|split; [|split]]].
  - destruct (H Sample.table) as (_ & _ & -> & _). reflexivity.
  - destruct (H Sample.procOptIn) as (_ & _ & -> & _).
    reflexivity.
  - destruct (H' Sample.lenient [] Sample.proc) as (_ & _ & -> & _).
    reflexivity.
  - destruct (H Sample.proc) as (_ & _ & Hm & Hno & _).
    apply Hno. rewrite Hm. reflexivity.
  - destruct (H Sample.tableOptOut) as (_ & _ & Hm & Hno & _).
    apply Hno. rewrite Hm. reflexivity.
Defined.

Lemma group_keeps_first_digest_witness :
  (exists g12 g21,
      codecsByFilterTypeName Sample.pg Sample.build [Sample.text; Sample.email]
      = inr {[ "StringFilter" := g12 ]}
      /\ codecsByFilterTypeName Sample.pg Sample.build
           [Sample.email; Sample.text]
         = inr {[ "StringFilter" := g21 ]}
      /\ Group.domainBaseTypeName g12 = None
      /\ Group.domainBaseTypeName g21 = Some "String")
  /\ (forall m g,
         codecsByFilterTypeName Sample.pg Sample.build
           [Sample.int4; Sample.email; Sample.text] = inr m ->
         m !! "StringFilter" = Some g ->
         Group.pgCodecs g = [Sample.email; Sample.text]
         /\ Group.domainBaseTypeName g = Some "String").
Proof.
  destruct (group_keeps_first_digest Sample.pg Sample.build) as [Hfirst Horder].
  split.
  - destruct (Horder Sample.text Sample.email _ _ eq_refl eq_refl eq_refl
                eq_refl)
      as (g12 & g21 & H12 & H21 & Hd12 & Hd21 & _).
    + unfold sameChecked. simpl. auto.
    + discriminate.
    + exists g12, g21. auto.
  - intros m g Hrun Hg.
    destruct (Hfirst _ m "StringFilter" g Hrun Hg)
      as (first & later & d & Hmem & Hd & Hcodecs & Hdom & _).
    injection Hmem as <- <-.
    injection Hd as <-. split; [exact Hcodecs | exact Hdom].
Defined.

(** * Further properties *)

(** ** [escapeLikeWildcards], continued *)

Lemma escapeLikeWildcards_string (s : string) :
  escapeLikeWildcards (JsString s) = inr (escapeChars s).
Proof.
  unfold escapeLikeWildcards. rewrite !join_split, replaceAll_twice.
  reflexivity.
Qed.

Lemma length_append (s t : string) :
  String.length (s ++ t) = String.length s + String.length t.
Proof.
  induction s as [|a s IH]; [reflexivity|].
  rewrite append_cons. simpl. rewrite IH. reflexivity.
Qed.

Lemma escapeChars_cons (c : ascii) (s : string) :
  escapeChars (String c s) =
  if isWildcard c then String "\" (String c (escapeChars s))
  else String c (escapeChars s).
Proof.
  unfold isWildcard. simpl.
  destruct (Ascii.eqb_spec c "%") as [->|Hp]; [reflexivity|].
  destruct (Ascii.eqb_spec c "_") as [->|Hu]; reflexivity.
Qed.

Lemma escapeChars_append (s t : string) :
  escapeChars (s ++ t) = (escapeChars s ++ escapeChars t)%string.
Proof.
  induction s as [|c s IH]; [reflexivity|].
  rewrite append_cons, !escapeChars_cons, IH.
  destruct (isWildcard c); reflexivity.
Qed.

(** The first character of an escaped string is never a wildcard. *)
Lemma escapeChars_head (s : string) (c : ascii) (rest : string) :
  escapeChars s = String c rest -> isWildcard c = false.
Proof.
  destruct s as [|x s]; [discriminate|].
  rewrite escapeChars_cons. destruct (isWildcard x) eqn:Hx.
  - intros [= <- _]. reflexivity.
  - intros [= <- _]. exact Hx.
Qed.

Lemma escapeChars_injective (s t : string) :
  escapeChars s = escapeChars t -> s = t.
Proof.
  revert t. induction s as [|x s IH]; intros [|y t].
  - reflexivity.
  - rewrite escapeChars_cons. destruct (isWildcard y); discriminate.
  - rewrite escapeChars_cons. destruct (isWildcard x); discriminate.
  - rewrite !escapeChars_cons.
    destruct (isWildcard x) eqn:Hx, (isWildcard y) eqn:Hy.
    + intros [= -> H]. f_equal. apply IH. exact H.
    + intros [= <- H]. symmetry in H. apply escapeChars_head in H. congruence.
    + intros [= -> H]. apply escapeChars_head in H. congruence.
    + intros [= -> H]. f_equal. apply IH. exact H.
Qed.

(** X1. Two different strings never escape to the same pattern. *)
Theorem escapeLikeWildcards_injective (s t : string) :
  escapeLikeWildcards (JsString s) = escapeLikeWildcards (JsString t) ->
  s = t.
Proof.
  rewrite !escapeLikeWildcards_string. intros [= H].
  apply escapeChars_injective. exact H.
Qed.

Lemma escapeLikeWildcards_injective_witness :
  escapeLikeWildcards (JsString "a_b") = escapeLikeWildcards (JsString "a_b")
  /\ "a_b" = "a_b".
Proof.
  split; [reflexivity|].
  apply (escapeLikeWildcards_injective "a_b" "a_b"). reflexivity.
Defined.

(** X2. The result is longer than the input by one character for each [%]
    and each [_] in it: one backslash per wildcard, nothing else added or
    dropped. *)
Theorem escapeLikeWildcards_length (s : string) :
  exists out,
    escapeLikeWildcards (JsString s) = inr out
    /\ String.length out = String.length s + countWildcards s.
Proof.
  exists (escapeChars s). split; [apply escapeLikeWildcards_string|].
  induction s as [|c s IH]; [reflexivity|].
  rewrite escapeChars_cons. cbn [countWildcards].
  destruct (isWildcard c); simpl; rewrite IH; lia.
Qed.

(** X3. A string comes back unchanged exactly when it holds neither [%] nor
    [_]; backslashes in the input are not escaped. *)
Theorem escapeLikeWildcards_unchanged_iff (s : string) :
  escapeLikeWildcards (JsString s) = inr s <-> countWildcards s = 0.
Proof.
  rewrite escapeLikeWildcards_string. split.
  - intros [= H].
    assert (Hlen : String.length (escapeChars s)
                   = String.length s + countWildcards s).
    { clear H. induction s as [|c s IH]; [reflexivity|].
      rewrite escapeChars_cons. cbn [countWildcards].
      destruct (isWildcard c); simpl; rewrite IH; lia. }
    rewrite H in Hlen. lia.
  - intros H. f_equal. induction s as [|c s IH]; [reflexivity|].
    rewrite escapeChars_cons. cbn [countWildcards] in H.
    destruct (isWildcard c); [discriminate|].
    rewrite IH by exact H. reflexivity.
Qed.

Lemma escapeLikeWildcards_unchanged_iff_witness :
  escapeLikeWildcards (JsString "a\b") = inr "a\b"
  /\ countWildcards "50%" <> 0.
Proof.
  split.
  - apply escapeLikeWildcards_unchanged_iff. reflexivity.
  - intros H. apply escapeLikeWildcards_unchanged_iff in H. discriminate H.
Defined.

(** X4. Escaping goes through concatenation: the pattern of [s ++ t] is the
    pattern of [s] followed by the pattern of [t]. *)
Theorem escapeLikeWildcards_append (s t : string) :
  exists ps pt,
    escapeLikeWildcards (JsString s) = inr ps
    /\ escapeLikeWildcards (JsString t) = inr pt
    /\ escapeLikeWildcards (JsString (s ++ t)) = inr (ps ++ pt)%string.
Proof.
  exists (escapeChars s), (escapeChars t).
  rewrite !escapeLikeWildcards_string, escapeChars_append. auto.
Qed.

(** X5. In the result every [%] and every [_] stands right after a
    backslash: none is at the start, and the character before it is [\]. *)
Theorem escapeLikeWildcards_wildcards_guarded (s : string) :
  exists out,
    escapeLikeWildcards (JsString s) = inr out
    /\ forall (i : nat) (c : ascii),
         String.get i out = Some c -> isWildcard c = true ->
         exists j, i = S j /\ String.get j out = Some "\"%char.
Proof.
  exists (escapeChars s). split; [apply escapeLikeWildcards_string|].
  induction s as [|x s IH]; intros i c.
  - destruct i; discriminate.
  - rewrite escapeChars_cons. destruct (isWildcard x) eqn:Hx.
    + destruct i as [|[|i]]; simpl.
      * intros [= <-]. discriminate.
      * intros _ _. exists 0. split; reflexivity.
      * intros Hget Hc. destruct (IH i c Hget Hc) as (j & -> & Hj).
        exists (S (S j)). split; [reflexivity | exact Hj].
    + destruct i as [|i]; simpl.
      * intros [= <-] Hc. congruence.
      * intros Hget Hc. destruct (IH i c Hget Hc) as (j & -> & Hj).
        exists (S j). split; [reflexivity | exact Hj].
Qed.

Lemma escapeLikeWildcards_wildcards_guarded_witness :
  exists out,
    escapeLikeWildcards (JsString "a%") = inr out
    /\ String.get 2 out = Some "%"%char
    /\ exists j, 2 = S j /\ String.get j out = Some "\"%char.
Proof.
  destruct (escapeLikeWildcards_wildcards_guarded "a%") as (out & Hout & Hg).
  exists out. split; [exact Hout|].
  assert (Hget : String.get 2 out = Some "%"%char).
  { vm_compute in Hout. injection Hout as <-. reflexivity. }
  split; [exact Hget|]. apply (Hg 2 "%"%char Hget). reflexivity.
Defined.

(** ** The classifier, continued *)

Lemma truthy_name_Some (o : option string) (s : string) :
  truthy_name o = Some s <-> o = Some s /\ s <> "".
Proof.
  unfold truthy_name. destruct o as [x|].
  - destruct (String.eqb_spec x "") as [->|Hne].
    + split; [discriminate|]. intros [[= <-] H]. congruence.
    + split; [intros [= <-]; auto|]. intros [[= <-] _]. reflexivity.
  - split; [discriminate|]. intros [[=] _].
Qed.

Lemma includes_codec_In (l : list Codec) (c : Codec) :
  includes_codec l c = true <-> In c l.
Proof.
  unfold includes_codec. rewrite existsb_exists. split.
  - intros (x & Hin & Heq). apply Codec_eqb_eq in Heq. subst. exact Hin.
  - intros Hin. exists c. split; [exact Hin | apply Codec_eqb_refl].
Qed.

Lemma includes_name_In (l : list string) (s : string) :
  includes_name l s = true <-> In s l.
Proof.
  unfold includes_name. rewrite existsb_exists. split.
  - intros (x & Hin & Heq). apply String.eqb_eq in Heq. subst. exact Hin.
  - intros Hin. exists s. split; [exact Hin | apply String.eqb_refl].
Qed.

Lemma isSuitableForFiltering_chain (pg : DataplanPg) :
  forall c : Codec,
    isSuitableForFiltering pg c = forallb (suitableShape pg) (domainChain c).
Proof.
  fix IH 1. intros [n cols an p ar r d e].
  rewrite isSuitableForFiltering_unfold. cbn [domainChain forallb domainOfCodec].
  unfold suitableShape at 1.
  destruct d as [d|].
  - rewrite IH. reflexivity.
  - rewrite !andb_true_r. reflexivity.
Qed.

(** What a digest tells about the codec it was made for. *)
Lemma digest_inv (pg : DataplanPg) (build : Build) (c : Codec) (d : Digest) :
  connectionFilterOperatorsDigest pg build c = Some d ->
  isSuitableForFiltering pg c = true
  /\ arrayOfCodec c = None
  /\ exists simple,
       getInnerCodec pg c = Some simple
       /\ polymorphism simple = false
       /\ columns simple = None
       /\ isAnonymous simple = false
       /\ Codec_eqb simple (TYPES_json pg) = false
       /\ truthy_name (getGraphQLTypeNameByPgCodec build c Output)
          = Some (relatedTypeName d)
       /\ getTypeMetaByName build (relatedTypeName d) <> None
       /\ truthy_name (getGraphQLTypeNameByPgCodec build c Input)
          = Some (inputTypeName d)
       /\ getTypeMetaByName build (inputTypeName d) <> None
       /\ (String.eqb (inputTypeName d) "String"
           && negb (includes_codec (actualStringCodecs pg) simple) = false)
       /\ match connectionFilterAllowedFieldTypes (options build) with
          | Some allowed => includes_name allowed (relatedTypeName d) = true
          | None => True
          end
       /\ d = {| isList := listType c;
                 operatorsTypeName :=
                   if listType c
                   then filterFieldListType (inflection build)
                          (relatedTypeName d)
                   else filterFieldType (inflection build) (relatedTypeName d);
                 relatedTypeName := relatedTypeName d;
                 inputTypeName := inputTypeName d;
                 rangeElementInputTypeName :=
                   match rangeOfCodec c with
                   | Some r => getGraphQLTypeNameByPgCodec build r Input
                   | None => None
                   end;
                 domainBaseTypeName :=
                   match domainOfCodec c with
                   | Some b => getGraphQLTypeNameByPgCodec build b Output
                   | None => None
                   end |}.
Proof.
  intros Hd. pose proof (digest_not_array pg build c d Hd) as Harr.
  unfold connectionFilterOperatorsDigest in Hd. rewrite Harr in Hd.
  cbn [default] in Hd.
  destruct (isSuitableForFiltering pg c); [|discriminate]. cbn [negb] in Hd.
  destruct (getInnerCodec pg c) as [simple|]; [|discriminate].
  destruct (polymorphism simple) eqn:Hpoly; [discriminate|].
  destruct (columns simple) eqn:Hcols; [discriminate|].
  destruct (isAnonymous simple) eqn:Hanon; [discriminate|].
  cbn [orb truthy] in Hd.
  destruct (Codec_eqb simple (TYPES_json pg)) eqn:Hjson; [discriminate|].
  destruct (truthy_name (getGraphQLTypeNameByPgCodec build c Output))
    as [out|]; [|discriminate].
  destruct (getTypeMetaByName build out) eqn:Hmo; [|discriminate].
  destruct (truthy_name (getGraphQLTypeNameByPgCodec build c Input))
    as [inp|]; [|discriminate].
  destruct (getTypeMetaByName build inp) eqn:Hmi; [|discriminate].
  destruct (String.eqb inp "String"
            && negb (includes_codec (actualStringCodecs pg) simple)) eqn:Hstr;
    [discriminate|].
  destruct (connectionFilterAllowedFieldTypes (options build)) as [allowed|]
    eqn:Hallow.
  - destruct (includes_name allowed out) eqn:Hinc; cbn [negb] in Hd;
      [|discriminate].
    destruct (bool_decide _ && negb _); [discriminate|].
    injection Hd as <-. cbn.
    split; [reflexivity|]. split; [exact Harr|]. exists simple.
    rewrite Hmo, Hmi. repeat split; auto; discriminate.
  - destruct (bool_decide _ && negb _); [discriminate|].
    injection Hd as <-. cbn.
    split; [reflexivity|]. split; [exact Harr|]. exists simple.
    rewrite Hmo, Hmi. repeat split; auto; discriminate.
Qed.

Lemma suitableShape_true (pg : DataplanPg) (x : Codec) :
  suitableShape pg x = true <->
  x <> TYPES_void pg /\ columns x = None /\ isAnonymous x = false
  /\ arrayOfCodec x = None /\ polymorphism x = false.
Proof.
  unfold suitableShape. rewrite !andb_true_iff, !negb_true_iff.
  split.
  - intros [[[[Hv Hc] Ha] Hr] Hp]. repeat split; auto.
    + intros ->. rewrite Codec_eqb_refl in Hv. discriminate.
    + destruct (columns x); [discriminate | reflexivity].
    + destruct (arrayOfCodec x); [discriminate | reflexivity].
  - intros (Hv & Hc & Ha & Hr & Hp). rewrite Hc, Hr. repeat split; auto.
    destruct (Codec_eqb x (TYPES_void pg)) eqn:He; [|reflexivity].
    apply Codec_eqb_eq in He. contradiction.
Qed.

(** X6. [isSuitableForFiltering] accepts a codec exactly when the codec and
    every base reached through [domainOfCodec] is not [void], has no columns,
    is not anonymous, is not an array and is not polymorphic.  A digest is
    made only for such codecs: a domain over a table type, over [void] or
    over an array has none. *)
Theorem suitable_along_domain_chain (pg : DataplanPg) (build : Build)
    (c : Codec) :
  (isSuitableForFiltering pg c = true <->
   forall x, In x (domainChain c) ->
     x <> TYPES_void pg /\ columns x = None /\ isAnonymous x = false
     /\ arrayOfCodec x = None /\ polymorphism x = false)
  /\ (forall d,
         connectionFilterOperatorsDigest pg build c = Some d ->
         forall x, In x (domainChain c) ->
           x <> TYPES_void pg /\ columns x = None /\ isAnonymous x = false
           /\ arrayOfCodec x = None /\ polymorphism x = false).
Proof.
  assert (Hiff : isSuitableForFiltering pg c = true <->
                 forall x, In x (domainChain c) ->
                   x <> TYPES_void pg /\ columns x = None
                   /\ isAnonymous x = false
                   /\ arrayOfCodec x = None /\ polymorphism x = false).
  { rewrite isSuitableForFiltering_chain, forallb_forall.
    split; intros H x Hx; apply suitableShape_true, H, Hx. }
  split; [exact Hiff|].
  intros d Hd. apply Hiff. apply digest_inv in Hd. tauto.
Qed.

Lemma suitable_along_domain_chain_witness :
  In Sample.text (domainChain Sample.email)
  /\ columns Sample.text = None
  /\ connectionFilterOperatorsDigest Sample.pg Sample.build
       (Sample.domainOf "people" Sample.person) = None.
Proof.
  pose proof (suitable_along_domain_chain Sample.pg Sample.build Sample.email)
    as [_ Hdig].
  assert (Hin : In Sample.text (domainChain Sample.email))
    by (right; left; reflexivity).
  split; [exact Hin|]. split.
  - apply (Hdig _ eq_refl Sample.text Hin).
  - pose proof (suitable_along_domain_chain Sample.pg Sample.build
                  (Sample.domainOf "people" Sample.person)) as [_ Hdig'].
    destruct (connectionFilterOperatorsDigest Sample.pg Sample.build
                (Sample.domainOf "people" Sample.person)) as [d|] eqn:Hd;
      [|reflexivity].
    assert (Hin' : In Sample.person
                     (domainChain (Sample.domainOf "people" Sample.person)))
      by (right; left; reflexivity).
    destruct (Hdig' d eq_refl Sample.person Hin') as (_ & Hcols & _).
    discriminate Hcols.
Defined.

(** X7. The innermost codec behind a digest, as [getInnerCodec] gives it, is
    not [TYPES.json], has no columns, is not anonymous and is not
    polymorphic; and when the input type of the digest is named [String],
    that innermost codec is one of the six textual codecs. *)
Theorem digest_inner_codec (pg : DataplanPg) (build : Build) (c : Codec)
    (d : Digest) :
  connectionFilterOperatorsDigest pg build c = Some d ->
  exists simple,
    getInnerCodec pg c = Some simple
    /\ simple <> TYPES_json pg
    /\ columns simple = None
    /\ isAnonymous simple = false
    /\ polymorphism simple = false
    /\ (inputTypeName d = "String" ->
        In simple [TYPES_bpchar pg; TYPES_char pg; TYPES_name pg;
                   TYPES_text pg; TYPES_varchar pg; TYPES_citext pg]).
Proof.
  intros Hd. apply digest_inv in Hd
    as (_ & _ & simple & Hin & Hp & Hc & Ha & Hj & _ & _ & _ & _ & Hs & _).
  exists simple. repeat split; auto.
  - intros ->. rewrite Codec_eqb_refl in Hj. discriminate.
  - intros Hstr. rewrite Hstr in Hs. cbn [String.eqb] in Hs.
    change ("String" =? "String")%string with true in Hs.
    cbn [andb] in Hs. apply negb_false_iff, includes_codec_In in Hs.
    exact Hs.
Qed.

Lemma digest_inner_codec_witness :
  exists simple,
    getInnerCodec Sample.pg Sample.email = Some simple
    /\ In simple [Sample.bpchar; Sample.char; Sample.pgname; Sample.text;
                  Sample.varchar; Sample.citext].
Proof.
  destruct (digest_inner_codec Sample.pg Sample.build Sample.email _ eq_refl)
    as (simple & Hin & _ & _ & _ & _ & Hs).
  exists simple. split; [exact Hin|]. apply Hs. reflexivity.
Defined.

(** X8. What a digest holds.  Its related and input type names are the
    non-empty output and input names of the codec itself, both known to
    [getTypeMetaByName]; its operator type name is the inflection of the
    related name, list-flavoured exactly when [isList]; [isList] is set only
    for a range whose subtype is an array; a range element name needs a
    range and a domain base name needs a domain; and the category is never
    [Array]. *)
Theorem digest_fields (pg : DataplanPg) (build : Build) (c : Codec)
    (d : Digest) :
  connectionFilterOperatorsDigest pg build c = Some d ->
  getGraphQLTypeNameByPgCodec build c Output = Some (relatedTypeName d)
  /\ relatedTypeName d <> ""
  /\ getGraphQLTypeNameByPgCodec build c Input = Some (inputTypeName d)
  /\ inputTypeName d <> ""
  /\ getTypeMetaByName build (relatedTypeName d) <> None
  /\ getTypeMetaByName build (inputTypeName d) <> None
  /\ operatorsTypeName d
     = (if isList d
        then filterFieldListType (inflection build) (relatedTypeName d)
        else filterFieldType (inflection build) (relatedTypeName d))
  /\ (isList d = true <->
      exists r, rangeOfCodec c = Some r /\ arrayOfCodec r <> None)
  /\ (rangeElementInputTypeName d <> None ->
      rangeOfCodec c <> None
      /\ pgConnectionFilterOperatorsCategory pg c = Range)
  /\ (domainBaseTypeName d <> None -> domainOfCodec c <> None)
  /\ pgConnectionFilterOperatorsCategory pg c <> Array.
Proof.
  intros Hd. apply digest_inv in Hd
    as (_ & Harr & simple & _ & _ & _ & _ & _ & Hout & Hmo & Hinp & Hmi & _
        & _ & Heq).
  apply truthy_name_Some in Hout as [Hout Hne1].
  apply truthy_name_Some in Hinp as [Hinp Hne2].
  assert (Hlist : isList d = listType c) by (rewrite Heq; reflexivity).
  assert (Hops : operatorsTypeName d
                 = if listType c
                   then filterFieldListType (inflection build)
                          (relatedTypeName d)
                   else filterFieldType (inflection build) (relatedTypeName d))
    by (rewrite Heq at 1; reflexivity).
  assert (Hrange : rangeElementInputTypeName d
                   = match rangeOfCodec c with
                     | Some r => getGraphQLTypeNameByPgCodec build r Input
                     | None => None
                     end) by (rewrite Heq at 1; reflexivity).
  assert (Hdom : domainBaseTypeName d
                 = match domainOfCodec c with
                   | Some b => getGraphQLTypeNameByPgCodec build b Output
                   | None => None
                   end) by (rewrite Heq at 1; reflexivity).
  clear Heq.
  repeat match goal with |- _ /\ _ => split end; auto.
  - rewrite Hlist. exact Hops.
  - rewrite Hlist. unfold listType. rewrite Harr. cbn [truthy orb]. split.
    + destruct (rangeOfCodec c) as [r|]; [|intros Hf; discriminate Hf].
      intros Hr. exists r. split; [reflexivity|].
      destruct (arrayOfCodec r); [discriminate | discriminate Hr].
    + intros (r & -> & Ha).
      destruct (arrayOfCodec r); [reflexivity | contradiction].
  - rewrite Hrange. intros Hr. rewrite category_first_match, Harr.
    destruct (rangeOfCodec c); [split; [discriminate | reflexivity]|].
    contradiction.
  - rewrite Hdom. destruct (domainOfCodec c); [discriminate | contradiction].
  - rewrite category_first_match, Harr.
    destruct (rangeOfCodec c), (isEnumCodec pg c), (domainOfCodec c);
      discriminate.
Qed.

Lemma digest_fields_witness :
  exists d,
    connectionFilterOperatorsDigest Sample.pg Sample.build Sample.int4range
    = Some d
    /\ operatorsTypeName d = "IntRangeFilter"
    /\ pgConnectionFilterOperatorsCategory Sample.pg Sample.int4range = Range.
Proof.
  eexists. split; [reflexivity|].
  destruct (digest_fields Sample.pg Sample.build Sample.int4range _ eq_refl)
    as (_ & _ & _ & _ & _ & _ & Hops & _ & Hrange & _).
  split; [exact Hops|]. apply Hrange. discriminate.
Defined.

(** X9. With [connectionFilterAllowedFieldTypes] set, a digest is made only
    for codecs whose output type name is in the list; an empty list, being
    truthy, turns every codec down. *)
Theorem digest_respects_allow_list (pg : DataplanPg) (build : Build)
    (allowed : list string) :
  connectionFilterAllowedFieldTypes (options build) = Some allowed ->
  (forall c d,
      connectionFilterOperatorsDigest pg build c = Some d ->
      In (relatedTypeName d) allowed)
  /\ (allowed = [] ->
      forall c, connectionFilterOperatorsDigest pg build c = None).
Proof.
  intros Hallow.
  assert (Hin : forall c d,
             connectionFilterOperatorsDigest pg build c = Some d ->
             In (relatedTypeName d) allowed).
  { intros c d Hd. apply digest_inv in Hd
      as (_ & _ & simple & _ & _ & _ & _ & _ & _ & _ & _ & _ & _ & Hlist & _).
    rewrite Hallow in Hlist. apply includes_name_In. exact Hlist. }
  split; [exact Hin|].
  intros -> c.
  destruct (connectionFilterOperatorsDigest pg build c) as [d|] eqn:Hd;
    [|reflexivity].
  destruct (Hin c d Hd).
Qed.

Lemma digest_respects_allow_list_witness :
  (exists d,
      connectionFilterOperatorsDigest Sample.pg
        (Sample.buildWith Cases.onlyInt []) Sample.int4 = Some d
      /\ In (relatedTypeName d) ["Int"])
  /\ connectionFilterOperatorsDigest Sample.pg
       (Sample.buildWith Cases.noTypes []) Sample.int4 = None.
Proof.
  split.
  - destruct (digest_respects_allow_list Sample.pg
                (Sample.buildWith Cases.onlyInt []) ["Int"] eq_refl)
      as [Hin _].
    eexists. split; [reflexivity|]. apply (Hin Sample.int4). reflexivity.
  - destruct (digest_respects_allow_list Sample.pg
                (Sample.buildWith Cases.noTypes []) [] eq_refl) as [_ Hnone].
    apply Hnone. reflexivity.
Defined.

(** X10. Of the options, the digest reads the allow-list only.  The
    [connectionFilterArrays] switch has no effect on it: an array codec has
    been turned down before the switch is looked at, and no other codec is in
    the [Array] category. *)
Theorem digest_reads_only_allow_list (pg : DataplanPg) (build : Build)
    (o : Options) (c : Codec) :
  connectionFilterAllowedFieldTypes o
  = connectionFilterAllowedFieldTypes (options build) ->
  connectionFilterOperatorsDigest pg (withOptions o build) c
  = connectionFilterOperatorsDigest pg build c.
Proof.
  intros Hallow. unfold connectionFilterOperatorsDigest.
  cbn [withOptions options inflection getGraphQLTypeNameByPgCodec
       getTypeMetaByName].
  rewrite Hallow.
  destruct (isSuitableForFiltering pg c) eqn:Hs; [|reflexivity].
  assert (Harr : arrayOfCodec c = None).
  { destruct (arrayOfCodec c) eqn:Ha; [|reflexivity].
    rewrite array_not_suitable in Hs by (rewrite Ha; reflexivity).
    discriminate. }
  assert (Hcat : bool_decide (pgConnectionFilterOperatorsCategory pg c = Array)
                 = false).
  { apply bool_decide_eq_false_2. rewrite category_first_match, Harr.
    destruct (rangeOfCodec c), (isEnumCodec pg c), (domainOfCodec c);
      discriminate. }
  rewrite Hcat. reflexivity.
Qed.

Lemma digest_reads_only_allow_list_witness :
  connectionFilterOperatorsDigest Sample.pg
    (withOptions Cases.noArrays Sample.build) Sample.int4range
  = connectionFilterOperatorsDigest Sample.pg Sample.build Sample.int4range
  /\ connectionFilterOperatorsDigest Sample.pg
       (withOptions Sample.lenient Sample.build) Sample.int4rangeArray
     = None.
Proof.
  split.
  - apply digest_reads_only_allow_list. reflexivity.
  - rewrite digest_reads_only_allow_list by reflexivity. reflexivity.
Defined.

(** ** The registry, continued *)

Section RegistryMore.

Variable pg : DataplanPg.
Variable build : Build.

Local Abbreviation digestOf := (connectionFilterOperatorsDigest pg build).

Lemma members_In (k : string) (l : list Codec) (c : Codec) :
  In c (members pg build k l) <->
  In c l /\ exists d, digestOf c = Some d /\ operatorsTypeName d = k.
Proof.
  unfold members. rewrite filter_In, hasOperatorsTypeName_true. reflexivity.
Qed.

Lemma sameChecked_sym (d1 d2 : Digest) : sameChecked d1 d2 -> sameChecked d2 d1.
Proof.
  unfold sameChecked. intros (? & ? & ? & ?). repeat split; congruence.
Qed.

Lemma sameChecked_agrees (g : Group.t) (d1 d2 : Digest) :
  agrees g d1 -> agrees g d2 -> sameChecked d1 d2.
Proof.
  unfold agrees, sameChecked. intros (? & ? & ? & ?) (? & ? & ? & ?).
  repeat split; congruence.
Qed.

Lemma success_consistent (l : list Codec) (m : gmap string Group.t) :
  codecsByFilterTypeName pg build l = inr m -> consistent pg build l.
Proof.
  intros Hrun c1 c2 d1 d2 Hin1 Hin2 Hd1 Hd2 Hname.
  destruct (registerCodecs_member pg build _ _ _ c1 d1 Hrun Hin1 Hd1)
    as (g1 & Hg1 & _ & Hag1).
  destruct (registerCodecs_member pg build _ _ _ c2 d2 Hrun Hin2 Hd2)
    as (g2 & Hg2 & _ & Hag2).
  rewrite <- Hname, Hg1 in Hg2. injection Hg2 as <-.
  eapply sameChecked_agrees; eassumption.
Qed.

Lemma consistent_success (l : list Codec) :
  consistent pg build l ->
  noInheritedName pg build l ->
  exists m, codecsByFilterTypeName pg build l = inr m.
Proof.
  intros Hcons Hown.
  destruct (codecsByFilterTypeName pg build l) as [e|m] eqn:Hrun; [|eauto].
  exfalso. apply registerCodecs_error in Hrun
    as (l1 & l2 & c & d & m & -> & Hl1 & Hd & Hcase).
  destruct Hcase as [(_ & Hinh & _)|(g & key & Hg & Hkey & _)].
  { rewrite (Hown c d) in Hinh; [discriminate | | exact Hd].
    apply in_or_app. right. left. reflexivity. }
  destruct (codecsByFilterTypeName_lookup pg build l1 m _ g Hl1 Hg)
    as (c0 & cs & d0 & Hmem & Hd0 & Hk0 & ->).
  assert (Hc0 : In c0 l1).
  { assert (H0 : In c0 (members pg build (operatorsTypeName d) l1))
      by (rewrite Hmem; left; reflexivity).
    apply members_In in H0. tauto. }
  assert (Hsame : sameChecked d0 d).
  { apply (Hcons c0 c d0 d); auto.
    - apply in_or_app. left. exact Hc0.
    - apply in_or_app. right. left. reflexivity. }
  apply (proj2 (agrees_newGroup c0 d0 d)) in Hsame.
  apply (proj2 (agrees_pushes cs _ d)) in Hsame.
  apply (proj2 (firstMismatch_None _ _)) in Hsame. congruence.
Qed.

Lemma noInheritedName_perm (l l' : list Codec) :
  Permutation l l' -> noInheritedName pg build l -> noInheritedName pg build l'.
Proof.
  intros Hp Hown c d Hin. apply (Hown c d).
  eapply Permutation_in; [symmetry; exact Hp | exact Hin].
Qed.

Lemma consistent_perm (l l' : list Codec) :
  Permutation l l' -> consistent pg build l -> consistent pg build l'.
Proof.
  intros Hp Hcons c1 c2 d1 d2 Hin1 Hin2.
  apply (Hcons c1 c2 d1 d2);
    eapply Permutation_in; try eassumption; symmetry; exact Hp.
Qed.

Lemma filter_perm {A} (f : A -> bool) (l l' : list A) :
  Permutation l l' -> Permutation (List.filter f l) (List.filter f l').
Proof.
  induction 1 as [|x l l' _ IH|x y l|l l' l'' _ IH1 _ IH2]; simpl.
  - constructor.
  - destruct (f x); [constructor|]; exact IH.
  - destruct (f x), (f y); try reflexivity. constructor.
  - etransitivity; eassumption.
Qed.

(** The group under [k] after a successful run, in full. *)
Lemma group_of_members (l : list Codec) (m : gmap string Group.t)
    (k : string) (g : Group.t) :
  codecsByFilterTypeName pg build l = inr m ->
  m !! k = Some g ->
  Group.pgCodecs g = members pg build k l
  /\ forall c d, In c l -> digestOf c = Some d -> operatorsTypeName d = k ->
       agrees g d.
Proof.
  intros Hrun Hg. split.
  - destruct (codecsByFilterTypeName_lookup pg build l m k g Hrun Hg)
      as (c0 & cs & d0 & Hmem & _ & _ & ->).
    rewrite pgCodecs_pushes, Hmem. reflexivity.
  - intros c d Hin Hd Hk.
    destruct (registerCodecs_member pg build _ _ _ c d Hrun Hin Hd)
      as (g' & Hg' & _ & Hag).
    rewrite Hk, Hg in Hg'. injection Hg' as <-. exact Hag.
Qed.

End RegistryMore.

(** X11. The registry loop runs to its end exactly when no digest of the
    catalogue falls under the name of a member of [Object.prototype] and
    every two codecs whose digests share an operator type name hold the same
    values under the four checked keys; otherwise it throws. *)
Theorem registry_succeeds_iff_consistent (pg : DataplanPg) (build : Build)
    (l : list Codec) :
  (exists m, codecsByFilterTypeName pg build l = inr m)
  <-> consistent pg build l /\ noInheritedName pg build l.
Proof.
  split.
  - intros [m Hrun]. split.
    + eapply success_consistent. exact Hrun.
    + eapply success_noInheritedName. exact Hrun.
  - intros [Hcons Hown]. apply consistent_success; assumption.
Qed.

Lemma registry_succeeds_iff_consistent_witness :
  (consistent Sample.pg Sample.build [Sample.text; Sample.email]
   /\ noInheritedName Sample.pg Sample.build [Sample.text; Sample.email])
  /\ ~ consistent Sample.pg Sample.build
         [Sample.int4range; Sample.positiveRange]
  /\ ~ noInheritedName Sample.pg Cases.inheritedName [Sample.text].
Proof.
  split; [|split].
  - apply (registry_succeeds_iff_consistent Sample.pg Sample.build).
    eexists. vm_compute. reflexivity.
  - intros Hcons.
    assert (Hown : noInheritedName Sample.pg Sample.build
                     [Sample.int4range; Sample.positiveRange]).
    { intros c d [<-|[<-|[]]] Hd; vm_compute in Hd; injection Hd as <-;
        reflexivity. }
    destruct (proj2 (registry_succeeds_iff_consistent Sample.pg Sample.build
                       [Sample.int4range; Sample.positiveRange])
                (conj Hcons Hown)) as [m Hrun].
    vm_compute in Hrun. discriminate Hrun.
  - intros Hown. specialize (Hown Sample.text _ (or_introl eq_refl) eq_refl).
    discriminate Hown.
Defined.

(** X12. After a successful [init], an operator type is registered under a
    name exactly when some codec of the catalogue has a digest with that
    operator type name; the registration lists those codecs, each once per
    occurrence and in catalogue order. *)
Theorem operator_types_registered (pg : DataplanPg) (build : Build)
    (filterTypes : list (string * Registration))
    (operatorTypes : gmap string Registration) :
  init_callback pg build = inr (filterTypes, operatorTypes) ->
  forall k,
    (is_Some (operatorTypes !! k) <->
     exists c d,
       In c (allPgCodecs build)
       /\ connectionFilterOperatorsDigest pg build c = Some d
       /\ operatorsTypeName d = k)
    /\ forall reg,
         operatorTypes !! k = Some reg ->
         exists input range base,
           reg_scope reg
           = ScopeOperators (members pg build k (allPgCodecs build))
               input range base.
Proof.
  unfold init_callback.
  destruct (codecsByFilterTypeName pg build (allPgCodecs build)) as [e|m]
    eqn:Hrun; [discriminate|].
  intros [= <- <-] k. rewrite lookup_fmap. split; [split|].
  - intros [reg Hreg]. destruct (m !! k) as [g|] eqn:Hg; [|discriminate].
    destruct (codecsByFilterTypeName_lookup pg build _ m k g Hrun Hg)
      as (c & cs & d & Hmem & Hd & Hk & _).
    exists c, d. repeat split; auto.
    assert (H0 : In c (members pg build k (allPgCodecs build)))
      by (rewrite Hmem; left; reflexivity).
    apply members_In in H0. tauto.
  - intros (c & d & Hin & Hd & <-).
    destruct (registerCodecs_member pg build _ _ _ c d Hrun Hin Hd)
      as (g & Hg & _). rewrite Hg. eexists. reflexivity.
  - intros reg Hreg. destruct (m !! k) as [g|] eqn:Hg; [|discriminate].
    injection Hreg as <-.
    destruct (group_of_members pg build _ m k g Hrun Hg) as [Hcodecs _].
    unfold operatorsRegistration. cbn [reg_scope]. rewrite Hcodecs. eauto.
Qed.

Lemma operator_types_registered_witness :
  exists filterTypes operatorTypes,
    init_callback Sample.pg Sample.build = inr (filterTypes, operatorTypes)
    /\ is_Some (operatorTypes !! "IntFilter")
    /\ operatorTypes !! "IntRangeFilter" = None.
Proof.
  destruct (init_callback Sample.pg Sample.build) as [e|[filterTypes ops]]
    eqn:Hinit; [vm_compute in Hinit; discriminate Hinit|].
  exists filterTypes, ops. split; [reflexivity|].
  pose proof (operator_types_registered Sample.pg Sample.build _ _ Hinit)
    as H.
  split.
  - apply (H "IntFilter"). exists Sample.int4. eexists.
    split; [right; left; reflexivity|]. split; reflexivity.
  - destruct (ops !! "IntRangeFilter") as [reg|] eqn:Hreg; [|reflexivity].
    exfalso.
    destruct (proj1 (proj1 (H "IntRangeFilter")) (ex_intro _ reg Hreg))
      as (c & d & Hin & Hd & Hk).
    simpl in Hin.
    destruct Hin as [<-|[<-|[<-|[<-|[]]]]]; vm_compute in Hd;
      try discriminate Hd; injection Hd as <-; discriminate Hk.
Defined.

(** X13. Listing the catalogue in another order does not change whether the
    registry loop succeeds, which operator type names it fills, or the four
    checked attributes of a group; the members of a group are the same
    codecs, in the new order.  ([domainBaseTypeName] is not covered: it
    follows the first member.) *)
Theorem registry_order_independent (pg : DataplanPg) (build : Build)
    (l l' : list Codec) (m : gmap string Group.t) :
  Permutation l l' ->
  codecsByFilterTypeName pg build l = inr m ->
  exists m',
    codecsByFilterTypeName pg build l' = inr m'
    /\ forall k g,
         m !! k = Some g ->
         exists g',
           m' !! k = Some g'
           /\ Group.isList g' = Group.isList g
           /\ Group.relatedTypeName g' = Group.relatedTypeName g
           /\ Group.inputTypeName g' = Group.inputTypeName g
           /\ Group.rangeElementInputTypeName g'
              = Group.rangeElementInputTypeName g
           /\ Permutation (Group.pgCodecs g) (Group.pgCodecs g').
Proof.
  intros Hperm Hrun.
  destruct (consistent_success pg build l') as [m' Hrun'].
  { eapply consistent_perm; [exact Hperm|].
    eapply success_consistent. exact Hrun. }
  { eapply noInheritedName_perm; [exact Hperm|].
    eapply success_noInheritedName. exact Hrun. }
  exists m'. split; [exact Hrun'|].
  intros k g Hg.
  destruct (codecsByFilterTypeName_lookup pg build l m k g Hrun Hg)
    as (c & cs & d & Hmem & Hd & Hk & _).
  assert (Hin : In c l).
  { assert (H0 : In c (members pg build k l))
      by (rewrite Hmem; left; reflexivity).
    apply members_In in H0. tauto. }
  assert (Hin' : In c l') by (eapply Permutation_in; eassumption).
  destruct (registerCodecs_member pg build _ _ _ c d Hrun' Hin' Hd)
    as (g' & Hg' & _ & Hag').
  rewrite Hk in Hg'. exists g'. split; [exact Hg'|].
  destruct (group_of_members pg build l m k g Hrun Hg) as [Hcodecs Hall].
  destruct (group_of_members pg build l' m' k g' Hrun' Hg') as [Hcodecs' _].
  pose proof (Hall c d Hin Hd Hk) as Hag.
  unfold agrees in Hag, Hag'.
  destruct Hag as (? & ? & ? & ?), Hag' as (? & ? & ? & ?).
  repeat split; try congruence.
  rewrite Hcodecs, Hcodecs'. unfold members. apply filter_perm. exact Hperm.
Qed.

Lemma registry_order_independent_witness :
  exists m m' g g',
    codecsByFilterTypeName Sample.pg Sample.build [Sample.text; Sample.email]
    = inr m
    /\ codecsByFilterTypeName Sample.pg Sample.build
         [Sample.email; Sample.text] = inr m'
    /\ m !! "StringFilter" = Some g
    /\ m' !! "StringFilter" = Some g'
    /\ Group.inputTypeName g' = Group.inputTypeName g
    /\ Permutation (Group.pgCodecs g) (Group.pgCodecs g').
Proof.
  destruct (codecsByFilterTypeName Sample.pg Sample.build
              [Sample.text; Sample.email]) as [e|m] eqn:Hrun;
    [vm_compute in Hrun; discriminate Hrun|].
  destruct (registry_order_independent Sample.pg Sample.build
              [Sample.text; Sample.email] [Sample.email; Sample.text] m
              (perm_swap _ _ _) Hrun) as (m' & Hrun' & Hgroups).
  destruct (m !! "StringFilter") as [g|] eqn:Hg.
  - destruct (Hgroups _ g Hg) as (g' & Hg' & _ & _ & Hinput & _ & Hp).
    exists m, m', g, g'. repeat split; auto.
  - exfalso.
    destruct (registerCodecs_member Sample.pg Sample.build _ _ _ Sample.text
                _ Hrun (or_introl eq_refl) eq_refl) as (g & Hg' & _).
    change (operatorsTypeName _) with "StringFilter" in Hg'. congruence.
Defined.

Lemma registerCodecs_skip (pg : DataplanPg) (build : Build)
    (l : list Codec) :
  forall m0,
    registerCodecs pg build m0 l
    = registerCodecs pg build m0
        (List.filter
           (fun c => truthy (connectionFilterOperatorsDigest pg build c)) l).
Proof.
  induction l as [|c l IH]; intros m0; [reflexivity|].
  cbn [List.filter registerCodecs].
  destruct (connectionFilterOperatorsDigest pg build c) as [d|] eqn:Hd;
    cbn [truthy].
  - cbn [registerCodecs].
    destruct (registerCodec pg build m0 c); [reflexivity | apply IH].
  - unfold registerCodec. rewrite Hd. apply IH.
Qed.

(** X14. Codecs for which no digest is made leave no trace in the registry:
    the loop gives the same groups, or the same error, as on the catalogue
    with those codecs taken out. *)
Theorem registry_skips_undigested (pg : DataplanPg) (build : Build)
    (l : list Codec) :
  codecsByFilterTypeName pg build l
  = codecsByFilterTypeName pg build
      (List.filter
         (fun c => truthy (connectionFilterOperatorsDigest pg build c)) l).
Proof. unfold codecsByFilterTypeName. apply registerCodecs_skip. Qed.

(** ** The filter types of the [init] hook *)

Lemma filterTypeRegistrations_In (build : Build) (l : list Codec)
    (n : string) (reg : Registration) :
  In (n, reg) (filterTypeRegistrations build l) <->
  exists c nodeTypeName,
    In c l
    /\ columns c <> None
    /\ isAnonymous c = false
    /\ getGraphQLTypeNameByPgCodec build c Output = Some nodeTypeName
    /\ nodeTypeName <> ""
    /\ n = filterType (inflection build) nodeTypeName
    /\ reg = {| reg_scope := ScopeFilter c;
                reg_description :=
                  "A filter to be used against `" ++ nodeTypeName
                  ++ "` object types. All fields are combined with a logical ‘and.’";
                reg_origin := "PgConnectionArgFilterPlugin" |}.
Proof.
  unfold filterTypeRegistrations. rewrite in_flat_map. split.
  - intros (c & Hin & Hreg).
    destruct (columns c) eqn:Hcols; [|destruct Hreg].
    destruct (isAnonymous c) eqn:Hanon; [destruct Hreg|].
    cbn [truthy negb orb] in Hreg.
    destruct (truthy_name (getGraphQLTypeNameByPgCodec build c Output))
      as [nodeTypeName|] eqn:Hname; [|destruct Hreg].
    apply truthy_name_Some in Hname as [Hname Hne].
    destruct Hreg as [[= <- <-]|[]].
    exists c, nodeTypeName. rewrite Hcols. repeat split; auto.
  - intros (c & nodeTypeName & Hin & Hcols & Hanon & Hname & Hne & -> & ->).
    exists c. split; [exact Hin|].
    destruct (columns c); [|contradiction]. rewrite Hanon.
    cbn [truthy negb orb].
    rewrite (proj2 (truthy_name_Some _ _) (conj Hname Hne)).
    left. reflexivity.
Qed.

(** X15. [init] registers a filter type for exactly the codecs of the
    catalogue that have columns, are not anonymous and have a non-empty
    output type name; the type is named by inflecting that name, tagged with
    the codec, and described by that name. *)
Theorem filter_types_registered (pg : DataplanPg) (build : Build)
    (filterTypes : list (string * Registration))
    (operatorTypes : gmap string Registration) :
  init_callback pg build = inr (filterTypes, operatorTypes) ->
  forall n reg,
    In (n, reg) filterTypes <->
    exists c nodeTypeName,
      In c (allPgCodecs build)
      /\ columns c <> None
      /\ isAnonymous c = false
      /\ getGraphQLTypeNameByPgCodec build c Output = Some nodeTypeName
      /\ nodeTypeName <> ""
      /\ n = filterType (inflection build) nodeTypeName
      /\ reg = {| reg_scope := ScopeFilter c;
                  reg_description :=
                    "A filter to be used against `" ++ nodeTypeName
                    ++ "` object types. All fields are combined with a logical ‘and.’";
                  reg_origin := "PgConnectionArgFilterPlugin" |}.
Proof.
  unfold init_callback.
  destruct (codecsByFilterTypeName pg build (allPgCodecs build)) as [e|m];
    [discriminate|].
  intros [= <- _] n reg. apply filterTypeRegistrations_In.
Qed.

Lemma filter_types_registered_witness :
  exists filterTypes operatorTypes reg,
    init_callback Sample.pg Cases.build = inr (filterTypes, operatorTypes)
    /\ In ("PersonFilter", reg) filterTypes
    /\ reg_scope reg = ScopeFilter Sample.person.
Proof.
  destruct (init_callback Sample.pg Cases.build) as [e|[filterTypes ops]]
    eqn:Hinit; [vm_compute in Hinit; discriminate Hinit|].
  eexists filterTypes, ops, _. split; [reflexivity|].
  split.
  - apply (filter_types_registered Sample.pg Cases.build _ _ Hinit).
    exists Sample.person, "Person".
    repeat split; try reflexivity; try discriminate.
    simpl. auto.
  - reflexivity.
Defined.

(** X16. Filter types and operator types never meet on a codec: a codec with
    columns has no digest, so the owner of a filter type is a member of no
    operator group, and a member of an operator group owns no filter
    type. *)
Theorem filter_owner_in_no_group (pg : DataplanPg) (build : Build)
    (l : list Codec) (m : gmap string Group.t) (n : string)
    (reg : Registration) (c : Codec) :
  In (n, reg) (filterTypeRegistrations build l) ->
  reg_scope reg = ScopeFilter c ->
  connectionFilterOperatorsDigest pg build c = None
  /\ (codecsByFilterTypeName pg build l = inr m ->
      forall k g, m !! k = Some g -> ~ In c (Group.pgCodecs g)).
Proof.
  intros Hin Hscope. apply filterTypeRegistrations_In in Hin
    as (c' & nodeTypeName & _ & Hcols & _ & _ & _ & _ & ->).
  injection Hscope as ->.
  assert (Hnone : connectionFilterOperatorsDigest pg build c = None).
  { destruct (connectionFilterOperatorsDigest pg build c) as [d|] eqn:Hd;
      [|reflexivity].
    apply digest_inv in Hd as (Hs & _).
    rewrite isSuitableForFiltering_unfold in Hs.
    destruct (columns c); [|contradiction].
    cbn [truthy negb] in Hs. rewrite andb_false_r in Hs. discriminate Hs. }
  split; [exact Hnone|].
  intros Hrun k g Hg Hmem.
  destruct (group_of_members pg build l m k g Hrun Hg) as [Hcodecs _].
  rewrite Hcodecs in Hmem. apply members_In in Hmem as (_ & d & Hd & _).
  congruence.
Qed.

Lemma filter_owner_in_no_group_witness :
  connectionFilterOperatorsDigest Sample.pg Cases.build Sample.person = None.
Proof.
  assert (Hin : In ("PersonFilter",
                    {| reg_scope := ScopeFilter Sample.person;
                       reg_description :=
                         "A filter to be used against `Person` object types. All fields are combined with a logical ‘and.’";
                       reg_origin := "PgConnectionArgFilterPlugin" |})
                   (filterTypeRegistrations Cases.build [Sample.person])).
  { left. reflexivity. }
  exact (proj1 (filter_owner_in_no_group Sample.pg Cases.build
                  [Sample.person] ∅ _ _ Sample.person Hin eq_refl)).
Defined.

(** ** The column filter fields, continued *)

Lemma columnFilterField_None (pg : DataplanPg) (build : Build)
    (owner : Codec) (columnName : string) (column_ : PgTypeColumn) :
  columnFilterField pg build owner (columnName, column_) = None <->
  columnQualifies pg build column_ = false.
Proof.
  unfold columnFilterField, columnQualifies.
  destruct (behavior_matches build _ "filter" "filter"); cbn [negb andb];
    [|tauto].
  destruct (connectionFilterOperatorsDigest pg build (column_codec column_))
    as [digest|]; [|tauto].
  destruct (getTypeByName build (operatorsTypeName digest)); cbn [truthy];
    split; congruence.
Qed.

Lemma columnFilterField_name (pg : DataplanPg) (build : Build)
    (owner : Codec) (columnName : string) (column_ : PgTypeColumn)
    (fieldName : string) (spec : FieldSpec) :
  columnFilterField pg build owner (columnName, column_)
  = Some (fieldName, spec) ->
  fs_fieldName spec = fieldName /\ isPgConnectionFilterField spec = true
  /\ fs_description spec
     = ("Filter by the object’s `" ++ fieldName ++ "` field.")%string.
Proof.
  unfold columnFilterField.
  destruct (behavior_matches build _ "filter" "filter"); [|discriminate].
  cbn [negb].
  destruct (connectionFilterOperatorsDigest pg build (column_codec column_))
    as [digest|]; [|discriminate].
  destruct (getTypeByName build (operatorsTypeName digest)); [|discriminate].
  intros [= <- <-]. auto.
Qed.

(** X17. The fields added for a codec are, in the order of its columns, one
    for each column that passes the three tests of the loop (the behaviour
    admits [filter], the column's codec has a digest, the operator type of
    that digest is found), named by the column inflector.  Each such column
    gets a field that is flagged as a connection filter field, is typed by
    the operator type of its digest and applies to that column. *)
Theorem qualifying_columns_get_fields (pg : DataplanPg) (build : Build)
    (owner : Codec) (cols : list (string * PgTypeColumn)) :
  columns owner = Some cols ->
  map fst (columnFilterFields pg build owner)
  = map (fun e => column (inflection build) owner (fst e))
      (List.filter (fun e => columnQualifies pg build (snd e)) cols)
  /\ forall columnName column_,
       In (columnName, column_) cols ->
       columnQualifies pg build column_ = true ->
       exists spec digest,
         In (column (inflection build) owner columnName, spec)
           (columnFilterFields pg build owner)
         /\ fs_fieldName spec = column (inflection build) owner columnName
         /\ isPgConnectionFilterField spec = true
         /\ fs_applyPlan spec
            = applyPlan build {| columnName := columnName; col := column_ |}
         /\ connectionFilterOperatorsDigest pg build (column_codec column_)
            = Some digest
         /\ getTypeByName build (operatorsTypeName digest)
            = Some (fs_type spec).
Proof.
  intros Hcols. unfold columnFilterFields. rewrite Hcols. split.
  - clear Hcols. induction cols as [|[columnName column_] cols IH];
      [reflexivity|].
    cbn [omap list_omap List.filter snd].
    destruct (columnFilterField pg build owner (columnName, column_))
      as [[fieldName spec]|] eqn:Hfield.
    + assert (Hq : columnQualifies pg build column_ = true).
      { destruct (columnQualifies pg build column_) eqn:Hq; [reflexivity|].
        apply columnFilterField_None with (owner := owner)
                                          (columnName := columnName) in Hq.
        congruence. }
      rewrite Hq. cbn [map fst]. f_equal; [|exact IH].
      apply columnFilterField_spec in Hfield. tauto.
    + apply columnFilterField_None in Hfield. rewrite Hfield. exact IH.
  - intros columnName column_ Hin Hq.
    destruct (columnFilterField pg build owner (columnName, column_))
      as [[fieldName spec]|] eqn:Hfield.
    + pose proof (columnFilterField_name _ _ _ _ _ _ _ Hfield)
        as (Hfn & Hflag & _).
      pose proof (columnFilterField_spec _ _ _ _ _ _ _ Hfield)
        as (Hname & Hplan & _ & digest & Hd & Hty).
      exists spec, digest. rewrite <- Hname. repeat split; auto.
      apply list_elem_of_In, list_elem_of_omap.
      exists (columnName, column_). split; [|exact Hfield].
      apply list_elem_of_In. exact Hin.
    + apply columnFilterField_None in Hfield. congruence.
Qed.

Lemma qualifying_columns_get_fields_witness :
  map fst (columnFilterFields Sample.pg Sample.build Sample.person)
  = ["id"; "name"]
  /\ exists spec,
       In ("id", spec) (columnFilterFields Sample.pg Sample.build Sample.person)
       /\ fs_type spec = {| type_name := "IntFilter" |}.
Proof.
  destruct (qualifying_columns_get_fields Sample.pg Sample.build Sample.person
              _ eq_refl) as [Hnames Hfields].
  split; [rewrite Hnames; reflexivity|].
  destruct (Hfields "id" (MkColumn Sample.int4 Sample.noExt)
              (or_introl eq_refl) eq_refl)
    as (spec & digest & Hin & _ & _ & _ & Hd & Hty).
  exists spec. split; [exact Hin|].
  vm_compute in Hd. injection Hd as <-.
  cbn [operatorsTypeName] in Hty.
  change (getTypeByName Sample.build "IntFilter")
    with (Some {| type_name := "IntFilter" |}) in Hty.
  congruence.
Defined.

Lemma domainChain_head (c : Codec) : In c (domainChain c).
Proof. destruct c. left. reflexivity. Qed.

(** X18. No filter field is ever made for a column whose codec is an array,
    has columns itself, is anonymous, polymorphic or [void], or whose
    behaviour does not admit [filter]: every field of the hook belongs to a
    column that is none of these.  [connectionFilterArrays] does not change
    that. *)
Theorem fields_only_for_filterable_columns (pg : DataplanPg) (build : Build)
    (owner : Codec) (fieldName : string) (spec : FieldSpec) :
  In (fieldName, spec) (columnFilterFields pg build owner) ->
  exists cols columnName column_,
    columns owner = Some cols
    /\ In (columnName, column_) cols
    /\ fs_applyPlan spec
       = applyPlan build {| columnName := columnName; col := column_ |}
    /\ behavior_matches build
         (pgGetBehavior build
            [extensions (column_codec column_); col_extensions column_])
         "filter" "filter" = true
    /\ arrayOfCodec (column_codec column_) = None
    /\ columns (column_codec column_) = None
    /\ isAnonymous (column_codec column_) = false
    /\ polymorphism (column_codec column_) = false
    /\ column_codec column_ <> TYPES_void pg.
Proof.
  unfold columnFilterFields.
  destruct (columns owner) as [cols|] eqn:Hcols; [|intros []].
  intros Hin. apply list_elem_of_In, list_elem_of_omap in Hin
    as ([columnName column_] & Hentry & Hfield).
  apply list_elem_of_In in Hentry.
  apply columnFilterField_spec in Hfield
    as (_ & Hplan & Hbeh & digest & Hd & _).
  apply digest_inv in Hd as (Hs & _).
  rewrite isSuitableForFiltering_chain, forallb_forall in Hs.
  specialize (Hs _ (domainChain_head (column_codec column_))).
  apply suitableShape_true in Hs as (? & ? & ? & ? & ?).
  exists cols, columnName, column_. repeat split; auto.
Qed.

Lemma fields_only_for_filterable_columns_witness :
  exists spec columnName column_,
    In ("name", spec)
      (columnFilterFields Sample.pg
         (withOptions Sample.lenient Sample.build) Sample.person)
    /\ In (columnName, column_) (default [] (columns Sample.person))
    /\ arrayOfCodec (column_codec column_) = None
    /\ columns (column_codec column_) = None.
Proof.
  assert (Hin : In ("name",
                    {| fs_fieldName := "name";
                       isPgConnectionFilterField := true;
                       fs_description := "Filter by the object’s `name` field.";
                       fs_type := {| type_name := "StringFilter" |};
                       fs_applyPlan :=
                         applyPlan (withOptions Sample.lenient Sample.build)
                           Sample.nameCol |})
                   (columnFilterFields Sample.pg
                      (withOptions Sample.lenient Sample.build)
                      Sample.person)).
  { right. left. reflexivity. }
  destruct (fields_only_for_filterable_columns Sample.pg
              (withOptions Sample.lenient Sample.build) Sample.person
              "name" _ Hin)
    as (cols & columnName & column_ & Hcols & Hentry & _ & _ & Harr & Hc & _).
  injection Hcols as <-.
  eexists _, columnName, column_. split; [exact Hin|]. auto.
Defined.

(** X19. The hook leaves the fields as they came, without calling the host's
    [extend], when the type is not a connection filter, has no codec, its
    codec has no columns, or no column of it passes the tests. *)
Theorem fields_hook_unchanged (pg : DataplanPg) (build : Build)
    (extend_fields :
       gmap string FieldSpec -> gmap string FieldSpec -> string ->
       JsError + gmap string FieldSpec)
    (inFields : gmap string FieldSpec) (scope : FieldsScope) :
  isPgConnectionFilter scope = false
  \/ pgCodec scope = None
  \/ (exists codec, pgCodec scope = Some codec /\ columns codec = None)
  \/ (exists codec cols,
        pgCodec scope = Some codec /\ columns codec = Some cols
        /\ forall e, In e cols -> columnQualifies pg build (snd e) = false) ->
  GraphQLInputObjectType_fields pg build extend_fields inFields scope
  = inr inFields.
Proof.
  unfold GraphQLInputObjectType_fields.
  intros [Hflag|[Hnone|[(codec & Hc & Hcols)|(codec & cols & Hc & Hcols & Hq)]]].
  - rewrite Hflag. destruct (pgCodec scope); reflexivity.
  - rewrite Hnone. reflexivity.
  - rewrite Hc, Hcols. cbn [truthy negb]. rewrite orb_true_r. reflexivity.
  - rewrite Hc, Hcols. cbn [truthy negb]. rewrite orb_false_r.
    destruct (isPgConnectionFilter scope); [|reflexivity]. cbn [negb].
    unfold columnFilterFields. rewrite Hcols.
    assert (Hnil : omap (columnFilterField pg build codec) cols = []).
    { clear Hcols. induction cols as [|[columnName column_] cols IH];
        [reflexivity|].
      cbn [omap list_omap].
      pose proof (proj2 (columnFilterField_None pg build codec columnName
                           column_)
                    (Hq (columnName, column_) (or_introl eq_refl))) as Hn.
      match goal with
      | |- context [columnFilterField ?a ?b ?c ?e] =>
        change (columnFilterField a b c e = None) in Hn; rewrite Hn
      end.
      apply IH. intros e He. apply Hq. right. exact He. }
    rewrite Hnil. reflexivity.
Qed.

Lemma fields_hook_unchanged_witness :
  GraphQLInputObjectType_fields Sample.pg Sample.build Cases.extend ∅
    {| pgCodec := Some Sample.text; isPgConnectionFilter := true |} = inr ∅
  /\ GraphQLInputObjectType_fields Sample.pg Sample.build Cases.extend ∅
       {| pgCodec := Some Sample.person; isPgConnectionFilter := false |}
     = inr ∅.
Proof.
  split.
  - apply fields_hook_unchanged. right. right. left.
    exists Sample.text. split; reflexivity.
  - apply fields_hook_unchanged. left. reflexivity.
Defined.

(** X20. The type of a column's filter field is an operator type that [init]
    registers: when the column's codec is in the catalogue and [init]
    succeeds, the operator type name of the column's digest is a key of the
    registered operator types, and the registration lists the column's codec
    among its codecs and carries the digest's input type name. *)
Theorem column_field_type_is_registered (pg : DataplanPg) (build : Build)
    (owner : Codec) (columnName : string) (column_ : PgTypeColumn)
    (fieldName : string) (spec : FieldSpec)
    (filterTypes : list (string * Registration))
    (operatorTypes : gmap string Registration) :
  columnFilterField pg build owner (columnName, column_)
  = Some (fieldName, spec) ->
  In (column_codec column_) (allPgCodecs build) ->
  init_callback pg build = inr (filterTypes, operatorTypes) ->
  exists digest codecs range base,
    connectionFilterOperatorsDigest pg build (column_codec column_)
    = Some digest
    /\ getTypeByName build (operatorsTypeName digest) = Some (fs_type spec)
    /\ (reg_scope <$> operatorTypes !! operatorsTypeName digest)
       = Some (ScopeOperators codecs (inputTypeName digest) range base)
    /\ In (column_codec column_) codecs
    /\ range = rangeElementInputTypeName digest.
Proof.
  intros Hfield Hin. unfold init_callback.
  destruct (codecsByFilterTypeName pg build (allPgCodecs build)) as [e|m]
    eqn:Hrun; [discriminate|].
  intros [= _ <-].
  apply columnFilterField_spec in Hfield as (_ & _ & _ & digest & Hd & Hty).
  destruct (registerCodecs_member pg build _ _ _ _ digest Hrun Hin Hd)
    as (g & Hg & Hmem & Hag).
  exists digest, (Group.pgCodecs g), (Group.rangeElementInputTypeName g),
    (Group.domainBaseTypeName g).
  rewrite lookup_fmap, Hg. unfold agrees in Hag.
  destruct Hag as (_ & _ & Hinput & Hrange).
  cbn. rewrite Hinput. repeat split; auto.
Qed.

Lemma column_field_type_is_registered_witness :
  exists filterTypes operatorTypes codecs range base,
    init_callback Sample.pg Sample.build = inr (filterTypes, operatorTypes)
    /\ (reg_scope <$> operatorTypes !! "IntFilter")
       = Some (ScopeOperators codecs "Int" range base)
    /\ In Sample.int4 codecs.
Proof.
  destruct (init_callback Sample.pg Sample.build) as [e|[filterTypes ops]]
    eqn:Hinit; [vm_compute in Hinit; discriminate Hinit|].
  destruct (column_field_type_is_registered Sample.pg Sample.build
              Sample.person "id" (MkColumn Sample.int4 Sample.noExt)
              _ _ filterTypes ops eq_refl
              (or_intror (or_introl eq_refl)) Hinit)
    as (digest & codecs & range & base & Hd & _ & Hreg & Hmem & _).
  vm_compute in Hd. injection Hd as <-.
  exists filterTypes, ops, codecs, range, base. auto.
Defined.

Lemma extendAll_fresh
    (extend_fields :
       gmap string FieldSpec -> gmap string FieldSpec -> string ->
       JsError + gmap string FieldSpec)
    (added : list (string * FieldSpec)) :
  (forall base k v hint,
      base !! k = None ->
      extend_fields base {[ k := v ]} hint = inr (<[k := v]> base)) ->
  forall fields : gmap string FieldSpec,
    NoDup added.*1 ->
    (forall n, n ∈ added.*1 -> fields !! n = None) ->
    extendAll extend_fields fields added
    = inr (list_to_map added ∪ fields).
Proof.
  intros Hext. induction added as [|[k v] added IH]; intros fields Hnd Hfresh.
  - cbn. rewrite (left_id_L ∅ (∪)). reflexivity.
  - cbn [extendAll]. rewrite Hext by (apply Hfresh; left).
    rewrite fmap_cons in Hnd. apply NoDup_cons in Hnd as [Hk Hnd].
    rewrite IH.
    + f_equal. rewrite list_to_map_cons.
      rewrite <- insert_union_r, <- insert_union_l; [reflexivity|].
      apply not_elem_of_list_to_map_1. exact Hk.
    + exact Hnd.
    + intros n Hn. rewrite lookup_insert_ne.
      * apply Hfresh. right. exact Hn.
      * intros ->. contradiction.
Qed.

(** X21. With a host [extend] that adds a key not yet present, and column
    field names that are pairwise distinct and not among the fields that
    came in, the hook returns the incoming fields together with one field
    per qualifying column, each under its inflected name. *)
Theorem fields_hook_adds_all (pg : DataplanPg) (build : Build)
    (extend_fields :
       gmap string FieldSpec -> gmap string FieldSpec -> string ->
       JsError + gmap string FieldSpec)
    (inFields : gmap string FieldSpec) (scope : FieldsScope)
    (codec : Codec) :
  (forall base k v hint,
      base !! k = None ->
      extend_fields base {[ k := v ]} hint = inr (<[k := v]> base)) ->
  pgCodec scope = Some codec ->
  isPgConnectionFilter scope = true ->
  NoDup (columnFilterFields pg build codec).*1 ->
  (forall n, n ∈ (columnFilterFields pg build codec).*1 ->
             inFields !! n = None) ->
  GraphQLInputObjectType_fields pg build extend_fields inFields scope
  = inr (list_to_map (columnFilterFields pg build codec) ∪ inFields)
  /\ forall fieldName spec,
       In (fieldName, spec) (columnFilterFields pg build codec) ->
       (list_to_map (columnFilterFields pg build codec) ∪ inFields)
         !! fieldName = Some spec.
Proof.
  intros Hext Hc Hflag Hnd Hfresh. split.
  - unfold GraphQLInputObjectType_fields. rewrite Hc, Hflag. cbn [negb orb].
    destruct (columns codec) eqn:Hcols; cbn [truthy negb].
    + apply extendAll_fresh; assumption.
    + unfold columnFilterFields. rewrite Hcols. cbn.
      rewrite (left_id_L ∅ (∪)). reflexivity.
  - intros fieldName spec Hin. apply lookup_union_Some_l.
    apply elem_of_list_to_map_1; [exact Hnd|].
    apply list_elem_of_In. exact Hin.
Qed.

Lemma Cases_extend_law {A} (base : gmap string A) (k : string) (v : A)
    (hint : string) :
  base !! k = None ->
  Cases.extend base {[ k := v ]} hint = inr (<[k := v]> base).
Proof.
  intros Hk. unfold Cases.extend.
  rewrite bool_decide_eq_true_2 by (apply map_disjoint_singleton_r; exact Hk).
  rewrite insert_union_singleton_r by exact Hk. reflexivity.
Qed.

Lemma fields_hook_adds_all_witness :
  exists fields specId specName,
    GraphQLInputObjectType_fields Sample.pg Sample.build Cases.extend ∅
      {| pgCodec := Some Sample.person; isPgConnectionFilter := true |}
    = inr fields
    /\ fields !! "id" = Some specId
    /\ fields !! "name" = Some specName
    /\ fs_type specName = {| type_name := "StringFilter" |}.
Proof.
  destruct (fields_hook_adds_all Sample.pg Sample.build Cases.extend ∅
              {| pgCodec := Some Sample.person; isPgConnectionFilter := true |}
              Sample.person (@Cases_extend_law FieldSpec) eq_refl eq_refl)
    as [Hrun Hlook].
  - apply (bool_decide_unpack _). vm_compute. reflexivity.
  - intros n _. apply lookup_empty.
  - eexists _, _, _. split; [exact Hrun|]. split; [|split].
    + apply Hlook. left. reflexivity.
    + apply Hlook. right. left. reflexivity.
    + reflexivity.
Defined.

(** ** The apply protocol, continued *)

(** X22. Two column fields applied one after the other, both passing the
    guards.  The second delegate starts with its own column in the slot,
    whatever the first delegate left there; when the first delegate throws,
    the second field is not applied at all. *)
Theorem applyPlan_in_sequence (build : Build) (c1 c2 : ColSpec)
    (fa1 fa2 : FieldArgs) (st : PlanState) :
  ~ emptyRejected build (getRaw fa1) -> ~ nullRejected build (getRaw fa1) ->
  ~ emptyRejected build (getRaw fa2) -> ~ nullRejected build (getRaw fa2) ->
  (applyPlan build c1 fa1 ;; applyPlan build c2 fa2) st
  = match apply fa1 (tagged c1 (logged build st)) with
    | (inl e, st1) => (inl e, st1)
    | (inr _, st1) => apply fa2 (tagged c2 (logged build st1))
    end
  /\ forall st1,
       pgFilterColumn (where_ (tagged c2 (logged build st1))) = Some c2.
Proof.
  intros He1 Hn1 He2 Hn2. split; [|reflexivity].
  unfold mbind, Plan_bind.
  rewrite (applyPlan_delegates build c1 fa1 st He1 Hn1).
  destruct (apply fa1 (tagged c1 (logged build st))) as [[e|[]] st1];
    [reflexivity|].
  apply applyPlan_delegates; assumption.
Qed.

Lemma applyPlan_in_sequence_witness :
  (applyPlan Sample.build Sample.nameCol (Sample.argsOf Sample.filled) ;;
   applyPlan Sample.build
     {| columnName := "id"; col := MkColumn Sample.int4 Sample.noExt |}
     (Sample.argsOf Sample.leaf)) Sample.st0
  = (inr tt,
     {| console := ["Check..."; "CHECK"; "Check..."; "CHECK"];
        where_ :=
          {| pgFilterColumn :=
               Some {| columnName := "id";
                       col := MkColumn Sample.int4 Sample.noExt |};
             conditions := ["name = $1"; "id = $1"] |} |}).
Proof.
  destruct (applyPlan_in_sequence Sample.build Sample.nameCol
              {| columnName := "id";
                 col := MkColumn Sample.int4 Sample.noExt |}
              (Sample.argsOf Sample.filled) (Sample.argsOf Sample.leaf)
              Sample.st0) as [Hrun _];
    try (intros [_ H]; discriminate H).
  rewrite Hrun. reflexivity.
Defined.

(** X23. A guard that fails in a later field does not undo what an earlier
    field has attached: the error comes out with the where-step as the first
    field's delegate left it. *)
Theorem later_failure_keeps_earlier_conditions (build : Build)
    (c1 c2 : ColSpec) (fa1 fa2 : FieldArgs) (st st1 : PlanState) :
  ~ emptyRejected build (getRaw fa1) -> ~ nullRejected build (getRaw fa1) ->
  apply fa1 (tagged c1 (logged build st)) = (inr tt, st1) ->
  emptyRejected build (getRaw fa2) \/ nullRejected build (getRaw fa2) ->
  exists e,
    fst ((applyPlan build c1 fa1 ;; applyPlan build c2 fa2) st) = inl e
    /\ (e = EmptyFilterObject \/ e = NullFilterLiteral)
    /\ where_ (snd ((applyPlan build c1 fa1 ;; applyPlan build c2 fa2) st))
       = where_ st1.
Proof.
  intros He1 Hn1 Hfirst Hrej. unfold mbind, Plan_bind.
  rewrite (applyPlan_delegates build c1 fa1 st He1 Hn1), Hfirst.
  destruct (classic_empty build (getRaw fa2)) as [He|Hne].
  - rewrite applyPlan_empty by exact He. eauto.
  - destruct Hrej as [He|Hn]; [contradiction|].
    rewrite applyPlan_null by assumption. eauto.
Qed.

Lemma later_failure_keeps_earlier_conditions_witness :
  exists e,
    fst ((applyPlan Sample.build Sample.nameCol (Sample.argsOf Sample.filled) ;;
          applyPlan Sample.build Sample.nameCol
            (Sample.argsOf Sample.emptyObject)) Sample.st0) = inl e
    /\ conditions
         (where_
            (snd ((applyPlan Sample.build Sample.nameCol
                     (Sample.argsOf Sample.filled) ;;
                   applyPlan Sample.build Sample.nameCol
                     (Sample.argsOf Sample.emptyObject)) Sample.st0)))
       = ["name = $1"].
Proof.
  edestruct (later_failure_keeps_earlier_conditions Sample.build
               Sample.nameCol Sample.nameCol (Sample.argsOf Sample.filled)
               (Sample.argsOf Sample.emptyObject) Sample.st0)
    as (e & He & _ & Hw);
    [intros [_ H]; discriminate H | intros [_ H]; discriminate H
     | reflexivity | left; split; reflexivity |].
  exists e. split; [exact He|]. rewrite Hw. reflexivity.
Defined.

(** X24. What [applyPlan] writes to the console.  Nothing when the
    empty-object guard throws; otherwise the line [Check...], followed by
    the line [CHECK] when [null] literals are forbidden, before the
    [null] guard is looked at and before anything is delegated. *)
Theorem applyPlan_console (build : Build) (colSpec : ColSpec)
    (fa : FieldArgs) (st : PlanState) :
  (emptyRejected build (getRaw fa) ->
   console (snd (applyPlan build colSpec fa st)) = console st)
  /\ (~ emptyRejected build (getRaw fa) ->
      let lines :=
        "Check..."
        :: (if connectionFilterAllowNullInput (options build)
            then [] else ["CHECK"]) in
      (nullRejected build (getRaw fa) ->
       console (snd (applyPlan build colSpec fa st))
       = (console st ++ lines)%list)
      /\ (~ nullRejected build (getRaw fa) ->
          exists before,
            applyPlan build colSpec fa st = apply fa before
            /\ console before = (console st ++ lines)%list)).
Proof.
  split.
  - intros He. rewrite applyPlan_empty by exact He. reflexivity.
  - intros Hne. split.
    + intros Hn. rewrite applyPlan_null by assumption. reflexivity.
    + intros Hnn. eexists. split.
      * apply applyPlan_delegates; assumption.
      * reflexivity.
Qed.

Lemma applyPlan_console_witness :
  console (snd (applyPlan Sample.build Sample.nameCol
                  (Sample.argsOf Sample.emptyObject) Sample.st0)) = []
  /\ console (snd (applyPlan Sample.build Sample.nameCol
                     (Sample.argsOf Sample.nullLiteral) Sample.st0))
     = ["Check..."; "CHECK"].
Proof.
  split.
  - apply (applyPlan_console Sample.build Sample.nameCol
             (Sample.argsOf Sample.emptyObject) Sample.st0).
    split; reflexivity.
  - destruct (applyPlan_console Sample.build Sample.nameCol
                (Sample.argsOf Sample.nullLiteral) Sample.st0) as [_ H].
    destruct H as [H _]; [intros [_ H0]; discriminate H0|].
    apply H. split; reflexivity.
Defined.

(** ** The [filter] argument, continued *)

(** X25. What the argument hook can do.  It either hands back [args] as they
    came, or calls the host's [extend] once, with a single new argument
    named [filter]: typed by the type found under the inflected filter type
    name of the source's codec, planned through the connection's subplan for
    a connection field (also when the field is flagged as a simple
    collection too) and on the select step otherwise.  It hands back [args]
    whenever the field is neither kind of listing, has no source, the
    codec has no GraphQL type, or no type is registered under the filter
    type name. *)
Theorem args_hook_outcomes (build : Build)
    (extend_args :
       gmap string ArgSpec -> gmap string ArgSpec -> string ->
       JsError + gmap string ArgSpec)
    (args : gmap string ArgSpec) (scope : ArgsScope) :
  (GraphQLObjectType_fields_field_args build extend_args args scope = inr args
   \/ exists source nodeType FilterType,
        pgSource scope = Some source
        /\ isPgFieldConnection scope || isPgFieldSimpleCollection scope = true
        /\ filterMatches build source = true
        /\ getGraphQLTypeByPgCodec build (src_codec source) Output
           = Some nodeType
        /\ getTypeByName build
             (filterType (inflection build) (type_name nodeType))
           = Some FilterType
        /\ GraphQLObjectType_fields_field_args build extend_args args scope
           = extend_args args
               {[ "filter" :=
                    {| arg_description :=
                         "A filter to be used in determining which values should be returned by the collection.";
                       arg_type := FilterType;
                       arg_plan := if isPgFieldConnection scope
                                   then PlanWhereOfSubplan else PlanWhere |} ]}
               ("Adding connection filter arg to field '" ++ fieldName scope
                ++ "' of '" ++ Self_name scope ++ "'"))
  /\ ((isPgFieldConnection scope = false
       /\ isPgFieldSimpleCollection scope = false)
      \/ pgSource scope = None
      \/ (exists source,
             pgSource scope = Some source
             /\ (getGraphQLTypeByPgCodec build (src_codec source) Output = None
                 \/ exists nodeType,
                      getGraphQLTypeByPgCodec build (src_codec source) Output
                      = Some nodeType
                      /\ getTypeByName build
                           (filterType (inflection build) (type_name nodeType))
                         = None)) ->
      GraphQLObjectType_fields_field_args build extend_args args scope
      = inr args).
Proof.
  unfold GraphQLObjectType_fields_field_args. split.
  - destruct (isPgFieldConnection scope || isPgFieldSimpleCollection scope)
      eqn:Hshape; cbn [negb]; [|left; reflexivity].
    destruct (pgSource scope) as [source|]; [|left; reflexivity].
    destruct (filterMatches build source) eqn:Hm; cbn [negb];
      [|left; reflexivity].
    destruct (getGraphQLTypeByPgCodec build (src_codec source) Output)
      as [nodeType|] eqn:Hnode; [|left; reflexivity].
    destruct (getTypeByName build
                (filterType (inflection build) (type_name nodeType)))
      as [FilterType|] eqn:Hfilter; [|left; reflexivity].
    right. exists source, nodeType, FilterType. repeat split; auto.
  - intros [[-> ->]|[->|(source & -> & Hty)]].
    + reflexivity.
    + destruct (isPgFieldConnection scope || isPgFieldSimpleCollection scope);
        reflexivity.
    + destruct (isPgFieldConnection scope || isPgFieldSimpleCollection scope);
        [|reflexivity]. cbn [negb].
      destruct (filterMatches build source); [|reflexivity]. cbn [negb].
      destruct Hty as [->|(nodeType & -> & ->)]; reflexivity.
Qed.

Lemma args_hook_outcomes_witness :
  GraphQLObjectType_fields_field_args Sample.build Cases.extend ∅
    {| isPgFieldConnection := false; isPgFieldSimpleCollection := false;
       pgSource := Some Sample.table; fieldName := "person";
       Self_name := "Query" |} = inr ∅
  /\ GraphQLObjectType_fields_field_args Sample.build Cases.extend ∅
       (Sample.listing
          {| src_codec := Sample.text; src_extensions := Sample.noExt;
             parameters := None |}) = inr ∅.
Proof.
  split.
  - apply args_hook_outcomes. left. split; reflexivity.
  - apply args_hook_outcomes. right. right. eexists.
    split; [reflexivity|]. left. reflexivity.
Defined.

(** X26. With a host [extend] that adds a key not yet present, a listing
    field whose source passes the capability check and whose types are found
    gets the [filter] argument added to its arguments; every other argument
    stays as it was. *)
Theorem args_hook_adds_filter (build : Build)
    (extend_args :
       gmap string ArgSpec -> gmap string ArgSpec -> string ->
       JsError + gmap string ArgSpec)
    (args : gmap string ArgSpec) (scope : ArgsScope) (source : Source)
    (nodeType FilterType : GraphQLType) :
  (forall base k v hint,
      base !! k = None ->
      extend_args base {[ k := v ]} hint = inr (<[k := v]> base)) ->
  args !! "filter" = None ->
  isPgFieldConnection scope || isPgFieldSimpleCollection scope = true ->
  pgSource scope = Some source ->
  filterMatches build source = true ->
  getGraphQLTypeByPgCodec build (src_codec source) Output = Some nodeType ->
  getTypeByName build (filterType (inflection build) (type_name nodeType))
  = Some FilterType ->
  exists args',
    GraphQLObjectType_fields_field_args build extend_args args scope
    = inr args'
    /\ args' !! "filter" = Some (filterArg scope FilterType)
    /\ arg_type (filterArg scope FilterType) = FilterType
    /\ forall other, other <> "filter" -> args' !! other = args !! other.
Proof.
  intros Hext Hfresh Hshape Hsource Hm Hnode Hfilter.
  exists (<["filter" := filterArg scope FilterType]> args).
  unfold GraphQLObjectType_fields_field_args.
  rewrite Hshape, Hsource, Hm. cbn [negb]. rewrite Hnode, Hfilter.
  rewrite Hext by exact Hfresh. split; [reflexivity|].
  rewrite lookup_insert_eq. split; [reflexivity|]. split; [reflexivity|].
  intros other Hne. apply lookup_insert_ne. congruence.
Qed.

Lemma args_hook_adds_filter_witness :
  exists args',
    GraphQLObjectType_fields_field_args Cases.build Cases.extend ∅
      (Sample.listing Sample.table) = inr args'
    /\ args' !! "filter"
       = Some {| arg_description :=
                   "A filter to be used in determining which values should be returned by the collection.";
                 arg_type := {| type_name := "PersonFilter" |};
                 arg_plan := PlanWhereOfSubplan |}.
Proof.
  destruct (args_hook_adds_filter Cases.build Cases.extend ∅
              (Sample.listing Sample.table) Sample.table
              {| type_name := "Person" |} {| type_name := "PersonFilter" |}
              (@Cases_extend_law ArgSpec) (lookup_empty _))
    as (args' & Hrun & Hfilter & _); try reflexivity.
  exists args'. split; [exact Hrun | exact Hfilter].
Defined.
